(** * nagios_object: an Ansible module managing Nagios object definitions

    A shallow embedding of [nagios_object.py] and the properties of its
    control flow.  The module is glue code between two collaborators it
    imports: the pynag library (object lookup, attribute mutation, save,
    delete) and the AnsibleModule framework (backup_local, cleanup,
    atomic_move, fail_json, exit_json).  Both are taken as an interface,
    the class [Lib]; the module's own functions are written over that
    interface in a small state-and-failure monad, statement by statement
    as in the Python source. *)

From Stdlib Require Import ZArith Ascii String Floats.SpecFloat.
From stdpp Require Import base option list gmap strings pretty.

Open Scope string_scope.

(** ** Data *)

(** The [choices] of the [type] argument in [main]'s argument_spec. *)
Inductive object_type :=
  | Host | Hostgroup | Service | Servicegroup | Contact | Contactgroup
  | Timeperiod | Command | Servicedependency | Serviceescalation
  | Hostdependency | Hostescalation.

#[global] Instance object_type_eq_dec : EqDecision object_type.
Proof. solve_decision. Defined.

Definition type_name (t : object_type) : string :=
  match t with
  | Host => "host" | Hostgroup => "hostgroup" | Service => "service"
  | Servicegroup => "servicegroup" | Contact => "contact"
  | Contactgroup => "contactgroup" | Timeperiod => "timeperiod"
  | Command => "command" | Servicedependency => "servicedependency"
  | Serviceescalation => "serviceescalation"
  | Hostdependency => "hostdependency" | Hostescalation => "hostescalation"
  end.

(** The [choices] of the [state] argument. *)
Inductive desired_state := present | absent.

#[global] Instance desired_state_eq_dec : EqDecision desired_state.
Proof. solve_decision. Defined.

(** A Python value as it can sit in the [parameters] dict, told apart by
    the tests the module applies to it ([is None], [isinstance], [==]).
    [VInt] is an integer: the module runs on Python 2, where an integer
    is an [int] up to [sys.maxint] in magnitude and a [long] beyond, and
    [long] is not a subclass of [int].  [VStr] is an instance of [str];
    [VBool] is kept apart because the module does so, although Python's
    [bool] is a subclass of [int].  [VOther] stands for a value of any
    other type (list, dict, ...), known by its repr. *)
Inductive value :=
  | VNone
  | VBool (b : bool)
  | VInt (z : Z)
  | VStr (s : string)
  | VFloat (f : spec_float)
  | VOther (repr : string).

#[global] Instance spec_float_eq_dec : EqDecision spec_float.
Proof. solve_decision. Defined.

#[global] Instance value_eq_dec : EqDecision value.
Proof. solve_decision. Defined.

Definition is_None (v : value) : bool :=
  match v with VNone => true | _ => false end.

Definition isinstance_str (v : value) : bool :=
  match v with VStr _ => true | _ => false end.

Definition isinstance_bool (v : value) : bool :=
  match v with VBool _ => true | _ => false end.

(** [isinstance(v, int)] on a platform whose [sys.maxint] is [maxint]:
    an integer is an [int] from [-maxint - 1] to [maxint] and a [long]
    outside; [isinstance(True, int)] holds. *)
Definition isinstance_int (maxint : Z) (v : value) : bool :=
  match v with
  | VInt z => bool_decide (- maxint - 1 ≤ z ≤ maxint)%Z
  | VBool _ => true
  | _ => false
  end.

(** The value the library hands back for an attribute it was given as
    [v] and has saved: configuration files hold text, so an integer comes
    back as the string of its digits; a string comes back as it is
    (strings the parser would alter, with blanks around them or a
    comment sign, are not told apart here), and a null, which removes
    the attribute, as null.  The other values never reach the library:
    the type check in [main] refuses them. *)
Definition read_back (v : value) : value :=
  match v with
  | VInt z => VStr (pretty z)
  | v => v
  end.

(** Python's [v == 0]: numbers compare by value across [int], [bool] and
    [float]; nothing else equals 0. *)
Definition py_eq_zero (v : value) : bool :=
  match v with
  | VInt z => Z.eqb z 0
  | VBool b => negb b
  | VFloat (S754_zero _) => true
  | _ => false
  end.

(** [d.get(k)] and [d.get(k, None)]. *)
Definition dict_get (d : gmap string value) (k : string) : value :=
  default VNone (d !! k).

(** [d.get(k, dflt)]. *)
Definition dict_get_default (d : gmap string value) (k : string) (dflt : value)
  : value :=
  default dflt (d !! k).

(** [a or b] on strings: the first one unless it is empty. *)
Definition str_or (a b : string) : string :=
  if decide (a = "") then b else a.

(** [s.split(sep)] for a one-character separator. *)
Fixpoint split (sep : ascii) (s : string) : list string :=
  match s with
  | EmptyString => [EmptyString]
  | String c r =>
      if decide (c = sep) then EmptyString :: split sep r
      else match split sep r with
           | h :: t => String c h :: t
           | [] => [String c EmptyString]
           end
  end.

(** [sep.join(pieces)], the inverse of [split]. *)
Fixpoint join_with (sep : ascii) (pieces : list string) : string :=
  match pieces with
  | [] => EmptyString
  | [p] => p
  | p :: rest => p +:+ String sep (join_with sep rest)
  end.

(** [os.pathsep] on the POSIX hosts Nagios runs on. *)
Definition os_pathsep : ascii := ":"%char.

(** [module.params] after AnsibleModule parsed and checked the arguments
    against the argument_spec ([type] among its choices, [parameters] a
    dict, the booleans defaulted).  [_diff] is the module's diff flag;
    [file_common] holds the arguments of the file module
    ([add_file_common_args=True]). *)
Record Params := {
  path : option string;
  type : object_type;
  parameters : gmap string value;
  state : desired_state;
  update : bool;
  validate : bool;
  nagios_cfg : option string;
  nagios_bin : option string;
  backup : bool;
  _diff : bool;
  file_common : gmap string value;
}.

Definition set_path (p : option string) (ps : Params) : Params :=
  {| path := p; type := type ps; parameters := parameters ps;
     state := state ps; update := update ps; validate := validate ps;
     nagios_cfg := nagios_cfg ps; nagios_bin := nagios_bin ps;
     backup := backup ps; _diff := _diff ps; file_common := file_common ps |}.

Definition set_nagios_cfg (c : option string) (ps : Params) : Params :=
  {| path := path ps; type := type ps; parameters := parameters ps;
     state := state ps; update := update ps; validate := validate ps;
     nagios_cfg := c; nagios_bin := nagios_bin ps;
     backup := backup ps; _diff := _diff ps; file_common := file_common ps |}.

Definition set_nagios_bin (b : option string) (ps : Params) : Params :=
  {| path := path ps; type := type ps; parameters := parameters ps;
     state := state ps; update := update ps; validate := validate ps;
     nagios_cfg := nagios_cfg ps; nagios_bin := b;
     backup := backup ps; _diff := _diff ps; file_common := file_common ps |}.

(** An uncaught Python exception. *)
Inductive exn :=
  | KeyError (key : string)
  | TypeError (message : string)
  | LibraryError (message : string).

(** [str(ex)], as ['{}'.format(ex)] renders it. *)
Definition exn_str (e : exn) : string :=
  match e with
  | KeyError k => "'" +:+ k +:+ "'"
  | TypeError m => m
  | LibraryError m => m
  end.

(** The calls of [module.fail_json] in the source, one constructor per
    call site, and [FrameworkFailed] for a call of [fail_json] that
    AnsibleModule makes inside one of its own helpers. *)
Inductive failure :=
  | PynagRequired
  | CfgFileMissing (cfg : string)
  | NagiosBinNotFound
  | NagiosBinNotExecutable (bin : string)
  | InvalidParameterItem (key : string)
  | TemplateKeyMissing (key : string) (t : object_type)
  | ServiceDescriptionMissing
  | ObjectKeyMissing (key : string) (t : object_type)
  | AvailabilityCheckFailed (ex : exn)
  | AmbiguousMatch
  | WriteFailed (ex : exn)
  | ValidationFailed (message : string)
  | FrameworkFailed (message : string).

(** The [msg] each call site passes to [fail_json]. *)
Definition failure_msg (f : failure) : string :=
  match f with
  | PynagRequired => "pynag is required for this module"
  | CfgFileMissing cfg =>
      "Nagios configuration file " +:+ cfg +:+ " does not exist"
  | NagiosBinNotFound => "Could not find Nagios executable, required by validate"
  | NagiosBinNotExecutable b =>
      "Nagios executable " +:+ b +:+ " does not exist or is not executable"
  | InvalidParameterItem k =>
      k +:+ " parameter item must be null, integer or string"
  | TemplateKeyMissing k t =>
      k +:+ " parameter must be defined for " +:+ type_name t
        +:+ " object template"
  | ServiceDescriptionMissing =>
      "service_description attribute must be defined for service objects"
  | ObjectKeyMissing k t =>
      k +:+ " parameter must be defined for " +:+ type_name t +:+ " objects"
  | AvailabilityCheckFailed ex =>
      "Failed to check Nagios object availability: " +:+ exn_str ex
  | AmbiguousMatch => "More than one Nagios object found matching parameter IDs"
  | WriteFailed ex => "Failed to write Nagios object: " +:+ exn_str ex
  | ValidationFailed m => "Nagios configuration validation failed: " +:+ m
  | FrameworkFailed m => m
  end.

(** The error kinds of the module's failures. *)
Inductive error_kind :=
  | missing_required_attribute
  | ambiguous_match
  | persistence_failure
  | validator_not_found
  | validation_failure
  | invalid_attribute_value
  | environment_failure
  | framework_failure.

Definition kind_of (f : failure) : error_kind :=
  match f with
  | TemplateKeyMissing _ _ | ServiceDescriptionMissing | ObjectKeyMissing _ _ =>
      missing_required_attribute
  | AmbiguousMatch => ambiguous_match
  | AvailabilityCheckFailed _ | WriteFailed _ => persistence_failure
  | NagiosBinNotFound | NagiosBinNotExecutable _ => validator_not_found
  | ValidationFailed _ => validation_failure
  | InvalidParameterItem _ => invalid_attribute_value
  | PynagRequired | CfgFileMissing _ => environment_failure
  | FrameworkFailed _ => framework_failure
  end.

(** How a call of one of AnsibleModule's file helpers ends: it answers,
    an exception escapes it, or it calls [fail_json] itself with a
    message. *)
Inductive answer (A : Type) :=
  | Done (a : A)
  | Throws (e : exn)
  | Exits (message : string).
#[global] Arguments Done {A} a.
#[global] Arguments Throws {A} e.
#[global] Arguments Exits {A} message.

(** ** The collaborators

    What the module imports and calls.  [World] is everything outside the
    module's own variables: the configuration tree on disk, the process
    environment and pynag's module-level state.  [Obj] is an in-memory
    [pynag.Model.ObjectDefinition]; the module handles one per run and
    never aliases it, so its methods are functions returning the mutated
    object.  Calls that write take and return the world. *)
Class Lib (World Obj FileArgs : Type) := {
  (** [HAS_LIB]: whether [from pynag import ...] succeeded. *)
  HAS_LIB : bool;
  (** [sys.maxint] of the interpreter. *)
  sys_maxint : Z;
  (** [os.path.isfile], [os.access(path, os.X_OK)], [os.environ['PATH']]
      ([None] when the variable is unset), [os.path.join]. *)
  os_path_isfile : World → string → bool;
  os_access_X_OK : World → string → bool;
  environ_PATH : World → option string;
  os_path_join : string → string → string;
  (** [Model.config.cfg_file], the assignment [Model.cfg_file = ...] and
      the dict [Model.config.object_type_keys]. *)
  config_cfg_file : World → option string;
  set_Model_cfg_file : string → World → World;
  object_type_keys : object_type → option string;
  (** [ObjectDefinition.objects.filter(object_type=..., **ids)]. *)
  objects_filter : World → object_type → gmap string value → exn + list Obj;
  (** [Model.string_to_class[t](filename=path, **parameters)]. *)
  string_to_class : object_type → option string → gmap string value → Obj;
  get_filename : Obj → option string;
  obj_str : Obj → string;
  set_attribute : Obj → string → value → Obj;
  is_dirty : Obj → bool;
  (** [nagios_object['meta']['defined_attributes']]. *)
  defined_attributes : Obj → gmap string value;
  obj_save : World → Obj → exn + (World * Obj);
  (** [nagios_object.delete(recursive=..., cleanup_related_items=...)]. *)
  obj_delete : World → Obj → bool → bool → exn + (World * Obj);
  (** [Control.daemon(nagios_bin, nagios_cfg).verify_config()] with the
      daemon's [stdout] and [stderr] afterwards. *)
  verify_config : World → option string → option string → bool * string * string;
  (** AnsibleModule's file helpers.  [backup_local] and
      [set_fs_attributes_if_different] can also end in an exception or
      in a [fail_json] of their own. *)
  backup_local : World → option string → answer (World * string);
  cleanup : World → option string → World;
  atomic_move : World → option string → option string → World;
  load_file_common_arguments : Params → FileArgs;
  set_fs_attributes_if_different :
    World → FileArgs → bool → answer (World * bool);
  (** Observation of the disk, used by specifications only: the content
      of the file at a path, if there is one. *)
  read_file : World → string → option string;
}.

(** ** The module *)

Section Module.
Context {World Obj FileArgs : Type} `{L : !Lib World Obj FileArgs}.

(** Every call that reads the configuration tree, writes, or runs
    something outside the process, in the order the module makes them. *)
Inductive effect :=
  | EFilter (t : object_type) (ids : gmap string value)
  | EBackupLocal (file : option string)
  | ESave (o : Obj)
  | EDelete (o : Obj) (recursive cleanup_related_items : bool)
  | EVerifyConfig (nagios_bin nagios_cfg : option string)
  | ECleanup (file : option string)
  | EAtomicMove (src dest : option string)
  | ESetFsAttributes (file_args : FileArgs) (changed : bool).

(** A mutation is any effect but a lookup or a run of the validator. *)
Definition is_mutation (e : effect) : bool :=
  match e with EFilter _ _ | EVerifyConfig _ _ => false | _ => true end.

(** The state a run threads: [module.params] (which [main] assigns to),
    the world, and the effects so far, oldest first. *)
Record module_state := {
  params : Params;
  world : World;
  log : list effect;
}.

(** How a function ends: it returns, [module.fail_json] exits the process,
    or an exception escapes. *)
Inductive outcome (A : Type) :=
  | Returned (a : A)
  | Failed (f : failure)
  | Raised (e : exn).
#[global] Arguments Returned {A} a.
#[global] Arguments Failed {A} f.
#[global] Arguments Raised {A} e.

Definition M (A : Type) : Type := module_state → outcome A * module_state.

#[global] Instance M_ret : MRet M := λ A a s, (Returned a, s).

#[global] Instance M_bind : MBind M := λ A B k m s,
  match m s with
  | (Returned a, s') => k a s'
  | (Failed f, s') => (Failed f, s')
  | (Raised e, s') => (Raised e, s')
  end.

Definition fail_json {A} (f : failure) : M A := λ s, (Failed f, s).

Definition raise {A} (e : exn) : M A := λ s, (Raised e, s).

(** [try: body except Exception as ex: handler(ex)].  [fail_json] leaves
    through [SystemExit], which [except Exception] does not catch. *)
Definition try_except {A} (body : M A) (handler : exn → M A) : M A := λ s,
  match body s with
  | (Raised e, s') => handler e s'
  | r => r
  end.

(** [module.params.get(name)]. *)
Definition param {A} (name : Params → A) : M A := λ s,
  (Returned (name (params s)), s).

(** [module.params[name] = v]. *)
Definition set_param (upd : Params → Params) : M unit := λ s,
  (Returned (), {| params := upd (params s); world := world s; log := log s |}).

(** A read of the world. *)
Definition observe {A} (f : World → A) : M A := λ s,
  (Returned (f (world s)), s).

(** An assignment to a module-level variable of the library; it stays
    inside the process. *)
Definition assign_global (f : World → World) : M unit := λ s,
  (Returned (), {| params := params s; world := f (world s); log := log s |}).

(** A call that changes the world: it is logged, then made. *)
Definition perform {A} (e : effect) (f : World → exn + (World * A)) : M A := λ s,
  let s' := {| params := params s; world := world s; log := log s ++ [e] |} in
  match f (world s) with
  | inl ex => (Raised ex, s')
  | inr (w, a) => (Returned a, {| params := params s; world := w; log := log s' |})
  end.

(** A call of a helper of AnsibleModule: logged, then made; its own
    [fail_json] ends the run like one of the module's. *)
Definition request {A} (e : effect) (f : World → answer (World * A)) : M A :=
  λ s,
  let s' := {| params := params s; world := world s; log := log s ++ [e] |} in
  match f (world s) with
  | Done (w, a) =>
      (Returned a, {| params := params s; world := w; log := log s' |})
  | Throws ex => (Raised ex, s')
  | Exits message => (Failed (FrameworkFailed message), s')
  end.

(** The library calls, as steps of the monad. *)

Definition call_filter (t : object_type) (ids : gmap string value)
  : M (list Obj) :=
  perform (EFilter t ids)
    (λ w, match objects_filter w t ids with
          | inl ex => inl ex
          | inr l => inr (w, l)
          end).

Definition call_save (o : Obj) : M Obj :=
  perform (ESave o) (λ w, obj_save w o).

Definition call_delete (o : Obj) (recursive cleanup_related_items : bool)
  : M Obj :=
  perform (EDelete o recursive cleanup_related_items)
    (λ w, obj_delete w o recursive cleanup_related_items).

Definition call_backup_local (file : option string) : M string :=
  request (EBackupLocal file) (λ w, backup_local w file).

Definition call_cleanup (file : option string) : M unit :=
  perform (ECleanup file) (λ w, inr (cleanup w file, ())).

Definition call_atomic_move (src dest : option string) : M unit :=
  perform (EAtomicMove src dest) (λ w, inr (atomic_move w src dest, ())).

Definition call_verify_config (bin cfg : option string)
  : M (bool * string * string) :=
  perform (EVerifyConfig bin cfg) (λ w, inr (w, verify_config w bin cfg)).

Definition call_set_fs_attributes_if_different (file_args : FileArgs)
  (changed : bool) : M bool :=
  request (ESetFsAttributes file_args changed)
    (λ w, set_fs_attributes_if_different w file_args changed).

(** [Model.string_to_class[t](filename=path, **parameters)]: Python
    refuses a call that is given the keyword [filename] twice. *)
Definition call_string_to_class (t : object_type) (path : option string)
  (parameters : gmap string value) : M Obj :=
  if decide (is_Some (parameters !! "filename"))
  then raise (TypeError
                "__init__() got multiple values for keyword argument 'filename'")
  else mret (string_to_class t path parameters).

(** [def is_exe(path)]. *)
Definition is_exe (path : string) : M bool :=
  observe (λ w, os_path_isfile w path && os_access_X_OK w path).

(** The [for path in ...] loop of [get_nagios_bin]. *)
Fixpoint get_nagios_bin_loop (dirs : list string) (program : string)
  : M (option string) :=
  match dirs with
  | [] => mret None
  | path :: rest =>
      let nagios_bin := os_path_join path program in
      exe ← is_exe nagios_bin;
      if exe : bool then mret (Some nagios_bin)
      else get_nagios_bin_loop rest program
  end.

(** [def get_nagios_bin(program='nagios')]. *)
Definition get_nagios_bin (program : string) : M (option string) :=
  PATH ← observe environ_PATH;
  match PATH with
  | None => raise (KeyError "PATH")
  | Some PATH => get_nagios_bin_loop (split os_pathsep PATH) program
  end.

(** The first half of [get_nagios_object]: the [if]/[else] that builds
    [nagios_object_ids]. *)
Definition nagios_object_ids : M (gmap string value) :=
  nagios_object_type ← param type;
  parameters ← param parameters;
  if py_eq_zero (dict_get_default parameters "register" (VInt 1)) then
    (* Template object *)
    let nagios_object_key := "name" in
    let nagios_object_id := dict_get parameters nagios_object_key in
    (if is_None nagios_object_id
     then fail_json (TemplateKeyMissing nagios_object_key nagios_object_type)
     else mret ());;
    mret ({[ nagios_object_key := nagios_object_id ]} : gmap string value)
  else
    match nagios_object_type with
    | Service =>
        let service_description := dict_get parameters "service_description" in
        (if is_None service_description
         then fail_json ServiceDescriptionMissing
         else mret ());;
        mret ({[ "service_description" := service_description;
                 "host_name" := dict_get parameters "host_name";
                 "hostgroup_name" := dict_get parameters "hostgroup_name" ]}
              : gmap string value)
    | Servicedependency =>
        mret ({[ "host_name" := dict_get parameters "host_name";
                 "dependent_host_name" :=
                   dict_get parameters "dependent_host_name";
                 "hostgroup_name" := dict_get parameters "hostgroup_name";
                 "dependent_hostgroup_name" :=
                   dict_get parameters "dependent_hostgroup_name";
                 "service_description" :=
                   dict_get parameters "service_description";
                 "dependent_service_description" :=
                   dict_get parameters "dependent_service_description";
                 "servicegroup_name" :=
                   dict_get parameters "servicegroup_name";
                 "dependent_servicegroup_name" :=
                   dict_get parameters "dependent_servicegroup_name" ]}
              : gmap string value)
    | Hostdependency =>
        mret ({[ "host_name" := dict_get parameters "host_name";
                 "hostgroup_name" := dict_get parameters "hostgroup_name";
                 "dependent_host_name" :=
                   dict_get parameters "dependent_host_name";
                 "dependent_hostgroup_name" :=
                   dict_get parameters "dependent_hostgroup_name" ]}
              : gmap string value)
    | _ =>
        nagios_object_key ←
          match object_type_keys nagios_object_type with
          | Some key => mret key
          | None => raise (KeyError (type_name nagios_object_type))
          end;
        let nagios_object_id := dict_get parameters nagios_object_key in
        (if is_None nagios_object_id
         then fail_json (ObjectKeyMissing nagios_object_key nagios_object_type)
         else mret ());;
        mret ({[ nagios_object_key := nagios_object_id ]} : gmap string value)
    end.

(** The second half: the lookup and the count of its matches. *)
Definition lookup_nagios_object (nagios_object_ids : gmap string value)
  : M (option Obj) :=
  nagios_object_type ← param type;
  nagios_objects ←
    try_except (call_filter nagios_object_type nagios_object_ids)
      (λ ex, fail_json (AvailabilityCheckFailed ex));
  match nagios_objects with
  | [] => mret None
  | o :: rest =>
      (if decide (1 < length nagios_objects)
       then fail_json AmbiguousMatch
       else mret ());;
      mret (Some o)
  end.

(** [def get_nagios_object(module)]. *)
Definition get_nagios_object : M (option Obj) :=
  ids ← nagios_object_ids;
  lookup_nagios_object ids.

(** The [for key, value in parameters.iteritems()] loop of
    [create_nagios_object]. *)
Definition set_attributes (o : Obj) (parameters : gmap string value) : Obj :=
  foldl (λ o kv, set_attribute o kv.1 kv.2) o (map_to_list parameters).

(** What [create_nagios_object] and [delete_nagios_object] return:
    [(changed, nagios_object_file, defined_attributes, before, after,
    backup_file)]. *)
Definition reconciled : Type :=
  bool * option string * option (gmap string value) * string * string
  * option string.

(** [def create_nagios_object(module)]. *)
Definition create_nagios_object : M reconciled :=
  nagios_object_type ← param type;
  parameters ← param parameters;
  update ← param update;
  path ← param path;
  backup ← param backup;
  validate ← param validate;
  found ← get_nagios_object;
  let backup_file := "" in
  '(before, changed, nagios_object, nagios_object_file) ←
    match found with
    | None =>
        (* Nagios object will be created *)
        nagios_object ←
          call_string_to_class nagios_object_type path parameters;
        mret ("", true, nagios_object, get_filename nagios_object)
    | Some nagios_object =>
        let before := obj_str nagios_object in
        let nagios_object_file := get_filename nagios_object in
        let nagios_object :=
          if update : bool then set_attributes nagios_object parameters
          else nagios_object in
        mret (before, is_dirty nagios_object, nagios_object, nagios_object_file)
    end;
  '(nagios_object, nagios_object_file, after, backup_file) ←
    (if changed : bool then
       backup_file ←
         (if backup || validate then call_backup_local nagios_object_file
          else mret backup_file);
       nagios_object ←
         try_except (call_save nagios_object) (λ ex, fail_json (WriteFailed ex));
       mret (nagios_object, get_filename nagios_object, obj_str nagios_object,
             backup_file)
     else mret (nagios_object, nagios_object_file, before, backup_file));
  mret (changed, nagios_object_file, Some (defined_attributes nagios_object),
        before, after, Some backup_file).

(** [def delete_nagios_object(module)]. *)
Definition delete_nagios_object : M reconciled :=
  found ← get_nagios_object;
  match found with
  | None => mret (false, None, None, "", "", None)
  | Some nagios_object =>
      backup ← param backup;
      validate ← param validate;
      let nagios_object_file := get_filename nagios_object in
      let before := obj_str nagios_object in
      backup_file ←
        (if backup || validate
         then b ← call_backup_local nagios_object_file; mret (Some b)
         else mret None);
      nagios_object ← call_delete nagios_object false true;
      mret (true, nagios_object_file, Some (defined_attributes nagios_object),
            before, "", backup_file)
  end.

(** [def validate_nagios_configuration(module, backup_file)]. *)
Definition validate_nagios_configuration (backup_file : option string)
  : M unit :=
  path ← param path;
  backup ← param backup;
  nagios_bin ← param nagios_bin;
  nagios_cfg ← param nagios_cfg;
  '(verified, stdout, stderr) ← call_verify_config nagios_bin nagios_cfg;
  if verified : bool then
    if negb backup && bool_decide (backup_file ≠ None) then
      (* Remove backup file since validation successed *)
      call_cleanup backup_file
    else mret ()
  else
    (if decide (backup_file = Some "") then
       (* Delete newly created Nagios file *)
       call_cleanup path
     else
       (* Restore original Nagios file from backup *)
       call_atomic_move backup_file path);;
    (* If validation process cannot be run, error messages are displayed
       on stdout *)
    let message := str_or stdout stderr in
    fail_json (ValidationFailed message).

(** The [diff] entry of the results. *)
Record diff := {
  before_header : option string;
  before : string;
  after_header : option string;
  after : string;
}.

(** What [main] hands to [module.exit_json]; [res_diff] and
    [res_backup_file] are [None] when the key is not set. *)
Record results := {
  res_changed : bool;
  res_path : option string;
  res_nagios_object : option (gmap string value);
  res_diff : option diff;
  res_backup_file : option (option string);
}.

(** The type check of [main] over [parameters.iteritems()]. *)
Definition bad_item (v : value) : bool :=
  negb (is_None v) && negb (isinstance_str v)
  && (isinstance_bool v || negb (isinstance_int sys_maxint v)).

Fixpoint check_items (items : list (string * value)) : M unit :=
  match items with
  | [] => mret ()
  | (key, v) :: rest =>
      (if bad_item v then fail_json (InvalidParameterItem key) else mret ());;
      check_items rest
  end.

(** The first part of [main]: the library, the configuration file and the
    validator must be there. *)
Definition check_environment : M unit :=
  (if HAS_LIB then mret () else fail_json PynagRequired);;
  cfg ← param nagios_cfg;
  (match cfg with
   | None => c ← observe config_cfg_file; set_param (set_nagios_cfg c)
   | Some _ => mret ()
   end);;
  (match cfg with
   | Some cfg =>
       isfile ← observe (λ w, os_path_isfile w cfg);
       (if isfile : bool then mret () else fail_json (CfgFileMissing cfg));;
       assign_global (set_Model_cfg_file cfg)
   | None => mret ()
   end);;
  validate ← param validate;
  if validate : bool then
    (* Validation requires the nagios executable *)
    bin ← param nagios_bin;
    match bin with
    | None =>
        found ← get_nagios_bin "nagios";
        set_param (set_nagios_bin found);;
        bin ← param nagios_bin;
        if decide (bin = None) then fail_json NagiosBinNotFound else mret ()
    | Some bin =>
        exe ← is_exe bin;
        if exe : bool then mret () else fail_json (NagiosBinNotExecutable bin)
    end
  else mret ().

(** The reconciliation of [main]: create or update, or delete. *)
Definition reconcile : M reconciled :=
  st ← param state;
  if decide (st = present) then create_nagios_object else delete_nagios_object.

(** [def main()]. *)
Definition main : M results :=
  check_environment;;
  (* Validate types for each specified Nagios object attribute *)
  parameters ← param parameters;
  check_items (map_to_list parameters);;
  '(changed, path, nagios_object, before, after, backup_file) ← reconcile;
  (* Update path to the real updated Nagios object file *)
  set_param (set_path path);;
  validate ← param validate;
  (if changed && validate then validate_nagios_configuration backup_file
   else mret ());;
  ps ← param id;
  let file_args := load_file_common_arguments ps in
  fs_changed ← call_set_fs_attributes_if_different file_args changed;
  let changed := changed || fs_changed in
  diff ← param _diff;
  backup ← param backup;
  mret {| res_changed := changed;
          res_path := path;
          res_nagios_object := nagios_object;
          res_diff :=
            if diff : bool
            then Some {| before_header := path; before := before;
                         after_header := path; after := after |}
            else None;
          res_backup_file := if backup : bool then Some backup_file else None |}.

(** A run starts with the parsed arguments and nothing done yet. *)
Definition start (ps : Params) (w : World) : module_state :=
  {| params := ps; world := w; log := [] |}.

End Module.

(** ** A small configuration tree

    An executable instance of [Lib], to run the module on concrete
    declarations: configuration files hold lists of object definitions,
    lookups read the [.cfg] files, saving rewrites the definition in its
    file, and the validator demands an [address] of every registered
    host. *)
Module Mini.

Definition definition : Type := object_type * gmap string value.

Record object := {
  o_type : object_type;
  o_file : option string;
  o_defined : gmap string value;
  o_changes : gmap string value;
  o_is_new : bool;
}.

Record machine := {
  files : gmap string (list definition);
  fs_attributes : gmap string (gmap string value);
  executables : list string;
  PATH : option string;
  cfg_file : option string;
  Model_cfg_file : option string;
}.

#[global] Instance object_eq_dec : EqDecision object.
Proof. solve_decision. Defined.

Definition with_files (fs : gmap string (list definition)) (w : machine) : machine :=
  {| files := fs; fs_attributes := fs_attributes w;
     executables := executables w; PATH := PATH w; cfg_file := cfg_file w;
     Model_cfg_file := Model_cfg_file w |}.

Definition ends_with (suffix s : string) : bool :=
  let n := String.length s in
  let m := String.length suffix in
  (m <=? n)%nat && String.eqb (substring (n - m) m s) suffix.

Definition starts_with (prefix s : string) : bool :=
  String.eqb (substring 0 (String.length prefix) s) prefix.

Definition join (a b : string) : string :=
  if starts_with "/" b then b
  else if decide (a = "") then b
  else if ends_with "/" a then a +:+ b
  else a +:+ "/" +:+ b.

Definition keys (t : object_type) : option string :=
  match t with
  | Host => Some "host_name"
  | Hostgroup => Some "hostgroup_name"
  | Service => Some "name"
  | Servicegroup => Some "servicegroup_name"
  | Contact => Some "contact_name"
  | Contactgroup => Some "contactgroup_name"
  | Timeperiod => Some "timeperiod_name"
  | Command => Some "command_name"
  | _ => None
  end.

Definition matches (t : object_type) (ids : gmap string value) (d : definition)
  : bool :=
  bool_decide (d.1 = t)
  && forallb (λ kv : string * value, bool_decide (dict_get d.2 kv.1 = kv.2))
       (map_to_list ids).

Definition parsed (f : string) (d : definition) : object :=
  {| o_type := d.1; o_file := Some f; o_defined := d.2; o_changes := ∅;
     o_is_new := false |}.

Definition all_objects (w : machine) : list object :=
  flat_map (λ fd : string * list definition,
              if ends_with ".cfg" fd.1 then map (parsed fd.1) fd.2 else [])
    (map_to_list (files w)).

Definition filter_objects (w : machine) (t : object_type)
  (ids : gmap string value) : exn + list object :=
  inr (List.filter (λ o, matches t ids (o_type o, o_defined o)) (all_objects w)).

Definition current (o : object) (k : string) : value :=
  match o_changes o !! k with
  | Some v => v
  | None => dict_get (o_defined o) k
  end.

Definition set (o : object) (k : string) (v : value) : object :=
  if decide (current o k = v) then o
  else {| o_type := o_type o; o_file := o_file o; o_defined := o_defined o;
          o_changes := <[k := v]> (o_changes o); o_is_new := o_is_new o |}.

Definition new (t : object_type) (path : option string)
  (parameters : gmap string value) : object :=
  foldl (λ o kv, set o kv.1 kv.2)
    {| o_type := t; o_file := path; o_defined := ∅; o_changes := ∅;
       o_is_new := true |}
    (map_to_list parameters).

Definition dirty (o : object) : bool := bool_decide (o_changes o ≠ ∅).

Definition effective (o : object) : gmap string value :=
  filter (λ kv : string * value, kv.2 ≠ VNone) (o_changes o ∪ o_defined o).

Definition value_str (v : value) : string :=
  match v with
  | VNone => "None"
  | VBool b => if b then "True" else "False"
  | VInt z => pretty z
  | VStr s => s
  | VFloat _ => "<float>"
  | VOther r => r
  end.

Definition newline : string := String "010"%char EmptyString.

Definition definition_str (d : definition) : string :=
  "define " +:+ type_name d.1 +:+ " {" +:+ newline
  +:+ String.concat ""
        (map (λ kv : string * value,
                "  " +:+ kv.1 +:+ "  " +:+ value_str kv.2 +:+ newline)
           (map_to_list d.2))
  +:+ "}" +:+ newline.

Definition str (o : object) : string := definition_str (o_type o, effective o).

Definition suggested_filename (o : object) : string :=
  "/etc/nagios/pynag/" +:+ type_name (o_type o) +:+ "s.cfg".

Fixpoint replace_first (old new : definition) (l : list definition)
  : option (list definition) :=
  match l with
  | [] => None
  | d :: r =>
      if decide (d = old) then Some (new :: r)
      else cons d <$> replace_first old new r
  end.

Fixpoint remove_first (old : definition) (l : list definition)
  : option (list definition) :=
  match l with
  | [] => None
  | d :: r =>
      if decide (d = old) then Some r else cons d <$> remove_first old r
  end.

(** A save writes the definition as text: what a later lookup parses is
    [read_back] of what was set. *)
Definition save_object (w : machine) (o : object) : exn + (machine * object) :=
  let f := default (suggested_filename o) (o_file o) in
  let d := (o_type o, read_back <$> effective o) in
  let o' := {| o_type := o_type o; o_file := Some f; o_defined := effective o;
               o_changes := ∅; o_is_new := false |} in
  if o_is_new o then
    inr (with_files (<[f := (default [] (files w !! f) ++ [d])%list]> (files w)) w,
         o')
  else
    match replace_first (o_type o, o_defined o) d (default [] (files w !! f)) with
    | Some l => inr (with_files (<[f := l]> (files w)) w, o')
    | None => inl (LibraryError "Failure saving object")
    end.

(** A comma-separated list without one of its fields. *)
Definition remove_field (name : string) (v : value) : value :=
  match v with
  | VStr s =>
      VStr (join_with ","
              (List.filter (λ x, negb (String.eqb x name)) (split "," s)))
  | v => v
  end.

(** Cleanup of related items, as far as this tree goes: the name of a
    deleted host is taken out of the [members] of the host groups and
    out of the [host_name] of the objects that are not hosts; the
    [parents] of other hosts are left as they are.  Objects of the other
    types have no related items here. *)
Definition forget (o : object) (d : definition) : definition :=
  match o_type o, dict_get (o_defined o) "host_name" with
  | Host, VStr name =>
      if decide (d.1 = Hostgroup)
      then (d.1, alter (remove_field name) "members" d.2)
      else if decide (d.1 = Host) then d
      else (d.1, alter (remove_field name) "host_name" d.2)
  | _, _ => d
  end.

Definition delete_object (w : machine) (o : object)
  (recursive cleanup_related_items : bool) : exn + (machine * object) :=
  match o_file o with
  | None => inl (LibraryError "object has no file")
  | Some f =>
      match remove_first (o_type o, o_defined o) (default [] (files w !! f)) with
      | None => inl (LibraryError "object not found in its file")
      | Some l =>
          let fs := <[f := l]> (files w) in
          let fs := if cleanup_related_items
                    then map_imap
                           (λ p ds, Some (if ends_with ".cfg" p
                                          then map (forget o) ds else ds))
                           fs
                    else fs in
          inr (with_files fs w, o)
      end
  end.

Definition registered_host_without_address (d : definition) : bool :=
  bool_decide (d.1 = Host)
  && negb (py_eq_zero (dict_get_default d.2 "register" (VInt 1)))
  && is_None (dict_get d.2 "address").

Definition verify (w : machine) (bin cfg : option string)
  : bool * string * string :=
  if existsb (λ o, registered_host_without_address (o_type o, o_defined o))
       (all_objects w)
  then (false, "Error: Host has no address", "")
  else (true, "Things look okay", "").

Definition backup_suffix : string := ".4242.2018-01-01@00:00:00~".

(** [backup_local] copies a file that exists and answers the empty
    string for one that does not; for [None] its [os.path.exists] raises. *)
Definition backup_copy (w : machine) (file : option string)
  : answer (machine * string) :=
  match file with
  | Some f =>
      match files w !! f with
      | Some c =>
          Done (with_files (<[f +:+ backup_suffix := c]> (files w)) w,
                f +:+ backup_suffix)
      | None => Done (w, "")
      end
  | None =>
      Throws (TypeError "coercing to Unicode: need string or buffer, NoneType found")
  end.

Definition remove_file (w : machine) (file : option string) : machine :=
  match file with
  | Some f => with_files (delete f (files w)) w
  | None => w
  end.

Definition move (w : machine) (src dest : option string) : machine :=
  match src, dest with
  | Some s, Some d =>
      match files w !! s with
      | Some c => with_files (<[d := c]> (delete s (files w))) w
      | None => w
      end
  | _, _ => w
  end.

Definition file_args : Type := option string * gmap string value.

(** [load_file_common_arguments] gives no arguments at all for
    parameters without a path, and [set_fs_attributes_if_different] then
    raises on its [file_args['path']]. *)
Definition set_fs_attributes (w : machine) (a : file_args) (changed : bool)
  : answer (machine * bool) :=
  match a.1 with
  | None => Throws (KeyError "path")
  | Some p =>
      let cur := default ∅ (fs_attributes w !! p) in
      let new := a.2 ∪ cur in
      if decide (new = cur) then Done (w, changed)
      else Done ({| files := files w;
                    fs_attributes := <[p := new]> (fs_attributes w);
                    executables := executables w; PATH := PATH w;
                    cfg_file := cfg_file w;
                    Model_cfg_file := Model_cfg_file w |},
                 true)
  end.

Definition read (w : machine) (p : string) : option string :=
  (λ l, String.concat "" (map definition_str l)) <$> files w !! p.

#[global] Instance lib : Lib machine object file_args := {|
  HAS_LIB := true;
  sys_maxint := 9223372036854775807;
  os_path_isfile := λ w p,
    bool_decide (is_Some (files w !! p)) || bool_decide (p ∈ executables w);
  os_access_X_OK := λ w p, bool_decide (p ∈ executables w);
  environ_PATH := PATH;
  os_path_join := join;
  config_cfg_file := cfg_file;
  set_Model_cfg_file := λ c w,
    {| files := files w; fs_attributes := fs_attributes w;
       executables := executables w; PATH := PATH w; cfg_file := cfg_file w;
       Model_cfg_file := Some c |};
  object_type_keys := keys;
  objects_filter := filter_objects;
  string_to_class := new;
  get_filename := o_file;
  obj_str := str;
  set_attribute := set;
  is_dirty := dirty;
  defined_attributes := o_defined;
  obj_save := save_object;
  obj_delete := delete_object;
  verify_config := verify;
  backup_local := backup_copy;
  cleanup := remove_file;
  atomic_move := move;
  load_file_common_arguments := λ ps, (path ps, file_common ps);
  set_fs_attributes_if_different := set_fs_attributes;
  read_file := read;
|}.

(** A tree with one host and the Nagios binary on the search path. *)
Definition host1 : definition :=
  (Host, {[ "host_name" := VStr "host1"; "alias" := VStr "Host 1";
            "address" := VStr "192.0.2.1" ]}).

Definition tree : machine :=
  {| files := {[ "/etc/nagios/objects/hosts.cfg" := [host1] ]};
     fs_attributes := ∅;
     executables := ["/usr/sbin/nagios"];
     PATH := Some "/usr/bin:/usr/sbin";
     cfg_file := Some "/etc/nagios/nagios.cfg";
     Model_cfg_file := None |}.

(** The same host defined twice, in two files. *)
Definition twin_tree : machine :=
  {| files := {[ "/etc/nagios/objects/hosts.cfg" := [host1];
                 "/etc/nagios/objects/more.cfg" :=
                   [(Host, {[ "host_name" := VStr "host1";
                              "address" := VStr "192.0.2.7" ]})] ]};
     fs_attributes := ∅;
     executables := ["/usr/sbin/nagios"];
     PATH := Some "/usr/bin:/usr/sbin";
     cfg_file := Some "/etc/nagios/nagios.cfg";
     Model_cfg_file := None |}.

Definition empty_tree : machine :=
  {| files := ∅; fs_attributes := ∅; executables := ["/usr/sbin/nagios"];
     PATH := Some "/usr/bin:/usr/sbin";
     cfg_file := Some "/etc/nagios/nagios.cfg"; Model_cfg_file := None |}.

(** A declaration with the defaults of the argument_spec. *)
Definition declare (t : object_type) (ps : gmap string value) : Params :=
  {| path := None; type := t; parameters := ps; state := present;
     update := true; validate := false; nagios_cfg := None;
     nagios_bin := None; backup := false; _diff := false;
     file_common := ∅ |}.

(** The state a run on a machine starts in. *)
Definition boot (ps : Params) (w : machine)
  : @module_state machine object file_args :=
  start ps w.

(** A host declared with a list for an attribute, to be validated with a
    Nagios binary that is not there. *)
Definition list_valued : Params :=
  {| path := None; type := Host;
     parameters := {[ "host_name" := VStr "host2";
                      "parents" := VOther "['host1']" ]};
     state := present; update := true; validate := true; nagios_cfg := None;
     nagios_bin := Some "/opt/nagios/bin/nagios"; backup := false;
     _diff := false; file_common := ∅ |}.

(** A host declared with an integer beyond [sys.maxint], a [long]. *)
Definition long_valued : Params :=
  {| path := None; type := Host;
     parameters := {[ "host_name" := VStr "host2";
                      "notification_interval" := VInt 9223372036854775808 ]};
     state := present; update := true; validate := false; nagios_cfg := None;
     nagios_bin := None; backup := false; _diff := false;
     file_common := ∅ |}.

Definition no_results : results :=
  {| res_changed := false; res_path := None; res_nagios_object := None;
     res_diff := None; res_backup_file := None |}.

(** A declaration of absence. *)
Definition retract (t : object_type) (ps : gmap string value) : Params :=
  {| path := None; type := t; parameters := ps; state := absent;
     update := true; validate := false; nagios_cfg := None;
     nagios_bin := None; backup := false; _diff := false;
     file_common := ∅ |}.

(** A declaration to be validated after the change. *)
Definition declare_checked (t : object_type) (ps : gmap string value) : Params :=
  {| path := None; type := t; parameters := ps; state := present;
     update := true; validate := true; nagios_cfg := None;
     nagios_bin := None; backup := false; _diff := false;
     file_common := ∅ |}.

(** A declaration to be validated after the change, of an object to be
    written to a given file. *)
Definition declare_checked_at (p : string) (t : object_type)
  (ps : gmap string value) : Params :=
  {| path := Some p; type := t; parameters := ps; state := present;
     update := true; validate := true; nagios_cfg := None;
     nagios_bin := None; backup := false; _diff := false;
     file_common := ∅ |}.

(** The tree on a machine whose environment has no [PATH]. *)
Definition unset_PATH : machine :=
  {| files := files tree; fs_attributes := ∅;
     executables := ["/usr/sbin/nagios"]; PATH := None;
     cfg_file := Some "/etc/nagios/nagios.cfg"; Model_cfg_file := None |}.

(** The tree on a machine without the Nagios binary. *)
Definition no_nagios : machine :=
  {| files := files tree; fs_attributes := ∅; executables := [];
     PATH := Some "/usr/bin:/usr/sbin";
     cfg_file := Some "/etc/nagios/nagios.cfg"; Model_cfg_file := None |}.

(** A tree the validator rejects, with a service: a second host has no
    address. *)
Definition ping : definition :=
  (Service, {[ "host_name" := VStr "host1";
               "service_description" := VStr "PING";
               "check_command" := VStr "check_ping" ]}).

Definition broken_tree : machine :=
  {| files := {[ "/etc/nagios/objects/hosts.cfg" :=
                   [host1; (Host, {[ "host_name" := VStr "host3" ]})];
                 "/etc/nagios/objects/services.cfg" := [ping] ]};
     fs_attributes := ∅;
     executables := ["/usr/sbin/nagios"];
     PATH := Some "/usr/bin:/usr/sbin";
     cfg_file := Some "/etc/nagios/nagios.cfg";
     Model_cfg_file := None |}.

(** A declaration that leaves an existing object alone. *)
Definition declare_once (t : object_type) (ps : gmap string value) : Params :=
  {| path := None; type := t; parameters := ps; state := present;
     update := false; validate := false; nagios_cfg := None;
     nagios_bin := None; backup := false; _diff := false;
     file_common := ∅ |}.

(** A declaration of absence, to be validated after the change. *)
Definition retract_checked (t : object_type) (ps : gmap string value) : Params :=
  {| path := None; type := t; parameters := ps; state := absent;
     update := true; validate := true; nagios_cfg := None;
     nagios_bin := None; backup := false; _diff := false;
     file_common := ∅ |}.

(** The library over configuration files that cannot be written: every
    save and every delete raises. *)
Definition read_only : Lib machine object file_args := {|
  HAS_LIB := true;
  sys_maxint := 9223372036854775807;
  os_path_isfile := λ w p,
    bool_decide (is_Some (files w !! p)) || bool_decide (p ∈ executables w);
  os_access_X_OK := λ w p, bool_decide (p ∈ executables w);
  environ_PATH := PATH;
  os_path_join := join;
  config_cfg_file := cfg_file;
  set_Model_cfg_file := λ c w,
    {| files := files w; fs_attributes := fs_attributes w;
       executables := executables w; PATH := PATH w; cfg_file := cfg_file w;
       Model_cfg_file := Some c |};
  object_type_keys := keys;
  objects_filter := filter_objects;
  string_to_class := new;
  get_filename := o_file;
  obj_str := str;
  set_attribute := set;
  is_dirty := dirty;
  defined_attributes := o_defined;
  obj_save := λ _ _, inl (LibraryError "Permission denied");
  obj_delete := λ _ _ _ _, inl (LibraryError "Permission denied");
  verify_config := verify;
  backup_local := backup_copy;
  cleanup := remove_file;
  atomic_move := move;
  load_file_common_arguments := λ ps, (path ps, file_common ps);
  set_fs_attributes_if_different := set_fs_attributes;
  read_file := read;
|}.

(** The library over configuration files that cannot be parsed: every
    lookup raises. *)
Definition unparsable : Lib machine object file_args := {|
  HAS_LIB := true;
  sys_maxint := 9223372036854775807;
  os_path_isfile := λ w p,
    bool_decide (is_Some (files w !! p)) || bool_decide (p ∈ executables w);
  os_access_X_OK := λ w p, bool_decide (p ∈ executables w);
  environ_PATH := PATH;
  os_path_join := join;
  config_cfg_file := cfg_file;
  set_Model_cfg_file := λ c w,
    {| files := files w; fs_attributes := fs_attributes w;
       executables := executables w; PATH := PATH w; cfg_file := cfg_file w;
       Model_cfg_file := Some c |};
  object_type_keys := keys;
  objects_filter := λ _ _ _, inl (LibraryError "Unexpected token");
  string_to_class := new;
  get_filename := o_file;
  obj_str := str;
  set_attribute := set;
  is_dirty := dirty;
  defined_attributes := o_defined;
  obj_save := save_object;
  obj_delete := delete_object;
  verify_config := verify;
  backup_local := backup_copy;
  cleanup := remove_file;
  atomic_move := move;
  load_file_common_arguments := λ ps, (path ps, file_common ps);
  set_fs_attributes_if_different := set_fs_attributes;
  read_file := read;
|}.

End Mini.

(** ** Vocabulary of the properties *)

Section Vocabulary.
Context {World Obj FileArgs : Type} `{L : !Lib World Obj FileArgs}.

Local Abbreviation module_state := (@module_state World Obj FileArgs).
Local Abbreviation effect := (@effect Obj FileArgs).
Local Abbreviation M := (@M World Obj FileArgs).

(** The state after some more effects. *)
Definition logged (s : module_state) (es : list effect) : module_state :=
  {| params := params s; world := world s; log := (log s ++ es)%list |}.

(** No effect of a log is a mutation. *)
Definition no_mutation (es : list effect) : Prop :=
  Forall (λ e, is_mutation e = false) es.

(** [main] up to the type check of the attribute values. *)
Definition preflight : M unit :=
  check_environment;;
  parameters ← param parameters;
  check_items (map_to_list parameters).

(** [main] after the reconciliation: validation, file attributes and the
    results. *)
Definition conclude (r : reconciled) : M results :=
  let '(changed, path, nagios_object, before, after, backup_file) := r in
  set_param (set_path path);;
  validate ← param validate;
  (if changed && validate then validate_nagios_configuration backup_file
   else mret ());;
  ps ← param id;
  let file_args := load_file_common_arguments ps in
  fs_changed ← call_set_fs_attributes_if_different file_args changed;
  let changed := changed || fs_changed in
  diff ← param _diff;
  backup ← param backup;
  mret {| res_changed := changed;
          res_path := path;
          res_nagios_object := nagios_object;
          res_diff :=
            if diff : bool
            then Some {| before_header := path; before := before;
                         after_header := path; after := after |}
            else None;
          res_backup_file := if backup : bool then Some backup_file else None |}.

(** [main] from the reconciliation on. *)
Definition finish : M results := reconcile ≫= conclude.


(** The module's own parameters, which [preflight] leaves alone: it only
    fills in [nagios_cfg] and [nagios_bin]. *)
Definition same_declaration (p q : Params) : Prop :=
  path p = path q ∧ type p = type q ∧ parameters p = parameters q
  ∧ state p = state q ∧ update p = update q ∧ validate p = validate q
  ∧ backup p = backup q ∧ _diff p = _diff q ∧ file_common p = file_common q.

(** The attribute the key set cannot be built without, if there is one:
    [name] for a template, [service_description] for a service, none for
    the two dependency types, the library's key for the others. *)
Definition demanded_key (t : object_type) (parameters : gmap string value)
  : option string :=
  if py_eq_zero (dict_get_default parameters "register" (VInt 1)) then Some "name"
  else match t with
       | Service => Some "service_description"
       | Servicedependency | Hostdependency => None
       | _ => object_type_keys t
       end.

(** The identifying key set of a type in the specification's words: a
    single key for most types, a composite of several attributes for
    service, service-dependency and host-dependency. *)
Definition identifying_keys (t : object_type) : list string :=
  match t with
  | Service => ["service_description"; "host_name"; "hostgroup_name"]
  | Servicedependency =>
      ["host_name"; "dependent_host_name"; "hostgroup_name";
       "dependent_hostgroup_name"; "service_description";
       "dependent_service_description"; "servicegroup_name";
       "dependent_servicegroup_name"]
  | Hostdependency =>
      ["host_name"; "hostgroup_name"; "dependent_host_name";
       "dependent_hostgroup_name"]
  | _ => option_list (object_type_keys t)
  end.

(** A declaration that has none of its type's identifying attributes. *)
Definition lacks_identity (ps : Params) : Prop :=
  Forall (λ k, parameters ps !! k = None) (identifying_keys (type ps)).

(** The invocation fails with a missing-required-attribute error before
    any effect. *)
Definition fails_for_missing_identity (ps : Params) (w : World)
  : Prop :=
  ∃ f s', main (start ps w) = (Failed f, s')
          ∧ kind_of f = missing_required_attribute
          ∧ log s' = [].

(** A computation whose failures, if any, all satisfy [P]. *)
Definition fails_only {A} (P : failure → Prop) (m : M A) : Prop :=
  ∀ s f s', m s = (Failed f, s') → P f.

(** The values an attribute may take, in the specification's words:
    null, an integer or a string. *)
Definition null_integer_or_string (v : value) : Prop :=
  match v with
  | VNone | VInt _ | VStr _ => True
  | _ => False
  end.

(** The values the type check lets through: null, a string, or an
    integer that is a Python [int], from [-sys.maxint - 1] to
    [sys.maxint]. *)
Definition null_int_or_str (v : value) : Prop :=
  match v with
  | VNone | VStr _ => True
  | VInt z => (- sys_maxint - 1 ≤ z ≤ sys_maxint)%Z
  | _ => False
  end.

(** Some supplied attribute value is not null, not a Python [int] and
    not a string. *)
Definition has_refused_value (ps : Params) : Prop :=
  ∃ k v, parameters ps !! k = Some v ∧ ¬ null_int_or_str v.

(** Some supplied attribute value is not null, not an integer and not a
    string. *)
Definition has_invalid_value (ps : Params) : Prop :=
  ∃ k v, parameters ps !! k = Some v ∧ ¬ null_integer_or_string v.

(** The invocation fails with an invalid-attribute-value error. *)
Definition fails_for_invalid_value (ps : Params) (w : World) : Prop :=
  ∃ k s', main (start ps w) = (Failed (InvalidParameterItem k), s').

(** The failures of the reconciliation are about identity, persistence
    or validation: never about the type of a value. *)
Definition not_invalid_value (f : failure) : Prop :=
  kind_of f ≠ invalid_attribute_value.

(** What a computation returned, or [d] if it did not return. *)
Definition result_of {A} (d : A) (r : outcome A) : A :=
  match r with Returned a => a | _ => d end.

(** The effects that commit a change: a save, or a non-recursive delete
    with cleanup of the related items. *)
Definition is_commit (e : effect) : Prop :=
  match e with
  | ESave _ | EDelete _ false true => True
  | _ => False
  end.

(** The file a backup is due of before the committing call [change]:
    the file of the object that was looked up, or of the new object. *)
Definition affected_file (ps : Params) (change : effect) (f : option string)
  : Prop :=
  (∃ o, f = get_filename o
        ∧ (change = ESave (if update ps then set_attributes o (parameters ps)
                           else o)
           ∨ change = EDelete o false true))
  ∨ (change = ESave (string_to_class (type ps) (path ps) (parameters ps))
     ∧ f = get_filename (string_to_class (type ps) (path ps) (parameters ps))).

(** A character occurs in a string. *)
Fixpoint occurs (c : ascii) (s : string) : Prop :=
  match s with
  | EmptyString => False
  | String c' r => c' = c ∨ occurs c r
  end.

(** [is_exe] as a test on a world. *)
Definition executable (w : World) (p : string) : bool :=
  os_path_isfile w p && os_access_X_OK w p.

(** The world once [main] has assigned [Model.cfg_file], which it does
    when [nagios_cfg] is given. *)
Definition configured (ps : Params) (w : World) : World :=
  match nagios_cfg ps with
  | Some cfg => set_Model_cfg_file cfg w
  | None => w
  end.

(** The effects the reconciliation may make for a declaration: the
    lookup, a save or a delete, and a backup only when the backup or the
    validate flag is set. *)
Definition reconciling (ps : Params) (e : effect) : Prop :=
  match e with
  | EFilter _ _ | ESave _ | EDelete _ _ _ => True
  | EBackupLocal _ => backup ps || validate ps = true
  | _ => False
  end.

(** The effects of an invocation that was not asked to validate: no run
    of the validator, no cleanup, no move, and a backup only with the
    backup flag. *)
Definition unvalidated (ps : Params) (e : effect) : Prop :=
  match e with
  | EVerifyConfig _ _ | ECleanup _ | EAtomicMove _ _ => False
  | EBackupLocal _ => backup ps = true
  | _ => True
  end.

(** The effects [main] may make after a reconciliation that reported
    [changed], in the state [ps] of the parameters: the file attributes,
    and the validator with its cleanup or move only after a change and
    with the validate flag. *)
Definition concluding (changed : bool) (ps : Params) (e : effect) : Prop :=
  match e with
  | ESetFsAttributes _ _ => True
  | EVerifyConfig _ _ | ECleanup _ | EAtomicMove _ _ =>
      changed && validate ps = true
  | _ => False
  end.

(** The object the present path is about to save for what the lookup
    found, and the file it takes the backup of: the object found with
    the attributes set, if that made it dirty, or a new object, which
    can be constructed when the attributes hold no [filename]. *)
Definition to_save (ps : Params) (found : option Obj) (o' : Obj)
  (f : option string) : Prop :=
  match found with
  | Some o =>
      o' = (if update ps then set_attributes o (parameters ps) else o)
      ∧ f = get_filename o ∧ is_dirty o' = true
  | None =>
      parameters ps !! "filename" = None
      ∧ o' = string_to_class (type ps) (path ps) (parameters ps)
      ∧ f = get_filename o'
  end.

(** The world [w1] in which the committing call is made: the one the
    backup of [f] left, when a backup is due. *)
Definition backed_up (ps : Params) (w : World) (f : option string)
  (w1 : World) : Prop :=
  if backup ps || validate ps then ∃ b, backup_local w f = Done (w1, b)
  else w1 = w.

(** What the absent path has before it deletes an object of the file
    [f]: the world [w1] and the backup file, the one [backup_local]
    names when a backup is due and none otherwise. *)
Definition backup_before_delete (ps : Params) (w : World) (f : option string)
  (w1 : World) (backup_file : option string) : Prop :=
  if backup ps || validate ps
  then ∃ b, backup_local w f = Done (w1, b) ∧ backup_file = Some b
  else w1 = w ∧ backup_file = None.

(** Whether a validation that succeeds removes the backup file, and the
    world it leaves. *)
Definition discards (ps : Params) (backup_file : option string) : bool :=
  negb (backup ps) && bool_decide (backup_file ≠ None).

Definition validated (ps : Params) (backup_file : option string) (w : World)
  : World :=
  if validate ps && discards ps backup_file then cleanup w backup_file else w.

(** The effects of [main] after a change, when the validator, if it is
    run, accepts the configuration. *)
Definition accepting (ps : Params) (backup_file : option string)
  (file_args : FileArgs) : list effect :=
  (if validate ps
   then EVerifyConfig (nagios_bin ps) (nagios_cfg ps)
        :: (if discards ps backup_file then [ECleanup backup_file] else [])
   else [])
  ++ [ESetFsAttributes file_args true].

(** The effects up to the committing call [change], after the lookup. *)
Definition committing (ps : Params) (f : option string) (change : effect)
  : list effect :=
  (if backup ps || validate ps then [EBackupLocal f] else []) ++ [change].

End Vocabulary.

(** ** Properties *)

Section Properties.
Context {World Obj FileArgs : Type} `{L : !Lib World Obj FileArgs}.

Local Abbreviation module_state := (@module_state World Obj FileArgs).
Local Abbreviation effect := (@effect Obj FileArgs).
Local Abbreviation M := (@M World Obj FileArgs).

Ltac unfold_monad :=
  unfold mbind, M_bind, mret, M_ret, param, set_param, observe, assign_global,
    fail_json, raise, try_except in *.

Ltac unfold_calls :=
  unfold call_filter, call_save, call_delete, call_backup_local, call_cleanup,
    call_atomic_move, call_verify_config, call_set_fs_attributes_if_different,
    call_string_to_class, perform, request in *.

Lemma outcome_of {A B} (p : A * B) (a : A) : p.1 = a → p = (a, p.2).
Proof. destruct p. by intros <-. Defined.

Lemma main_split (s : module_state) :
  main s = match preflight s with
           | (Returned _, s1) => finish s1
           | (Failed f, s1) => (Failed f, s1)
           | (Raised e, s1) => (Raised e, s1)
           end.
Proof.
  unfold main, preflight, finish. unfold_monad.
  destruct (check_environment s) as [[[]|f|e] s0]; reflexivity.
Qed.

Lemma check_items_state items (s : module_state) r s' :
  check_items items s = (r, s') → s' = s.
Proof.
  revert s. induction items as [|[k v] items IH]; intros s; cbn.
  - unfold_monad. congruence.
  - unfold_monad. destruct (bad_item v); cbn; [congruence|]. apply IH.
Qed.

Lemma get_nagios_bin_loop_state dirs program (s : module_state) r s' :
  get_nagios_bin_loop dirs program s = (r, s') → s' = s.
Proof.
  revert s. induction dirs as [|d dirs IH]; intros s; cbn; unfold_monad.
  - congruence.
  - unfold is_exe. unfold_monad.
    destruct (os_path_isfile _ _ && os_access_X_OK _ _); [congruence|apply IH].
Qed.

Lemma check_environment_frame s r s' :
  check_environment s = (r, s') →
  log s' = log s ∧ same_declaration (params s') (params s).
Proof.
  unfold check_environment, get_nagios_bin, is_exe. unfold_monad.
  destruct HAS_LIB; cbn.
  2:{ intros [= <- <-]. by repeat split. }
  destruct s as [ps w l]; cbn.
  destruct (nagios_cfg ps) as [cfg|] eqn:Ecfg; cbn.
  - destruct (os_path_isfile w cfg); cbn.
    2:{ intros [= <- <-]. by repeat split. }
    destruct (validate ps); cbn.
    2:{ intros [= <- <-]. by repeat split. }
    destruct (nagios_bin ps) as [bin|]; cbn.
    + destruct (_ && _); intros [= <- <-]; by repeat split.
    + destruct (environ_PATH _); cbn.
      2:{ intros [= <- <-]. by repeat split. }
      match goal with
      | |- context [get_nagios_bin_loop ?d ?p ?s] =>
          destruct (get_nagios_bin_loop d p s) as [r0 s0] eqn:E
      end.
      apply get_nagios_bin_loop_state in E as ->.
      destruct r0 as [found| |]; cbn.
      * destruct (decide (found = None)); intros [= <- <-]; by repeat split.
      * intros [= <- <-]. by repeat split.
      * intros [= <- <-]. by repeat split.
  - destruct (validate ps); cbn.
    2:{ intros [= <- <-]. by repeat split. }
    destruct (nagios_bin ps) as [bin|]; cbn.
    + destruct (_ && _); intros [= <- <-]; by repeat split.
    + destruct (environ_PATH _); cbn.
      2:{ intros [= <- <-]. by repeat split. }
      match goal with
      | |- context [get_nagios_bin_loop ?d ?p ?s] =>
          destruct (get_nagios_bin_loop d p s) as [r0 s0] eqn:E
      end.
      apply get_nagios_bin_loop_state in E as ->.
      destruct r0 as [found| |]; cbn.
      * destruct (decide (found = None)); intros [= <- <-]; by repeat split.
      * intros [= <- <-]. by repeat split.
      * intros [= <- <-]. by repeat split.
Qed.

(** The checks before the reconciliation make no effect and keep the
    declaration. *)
Lemma preflight_frame s r s' :
  preflight s = (r, s') →
  log s' = log s ∧ same_declaration (params s') (params s).
Proof.
  unfold preflight. unfold_monad.
  destruct (check_environment s) as [r0 s0] eqn:E.
  apply check_environment_frame in E.
  destruct r0 as [[]| |]; cbn; try (intros [= <- <-]; exact E).
  destruct (check_items _ s0) as [r1 s1] eqn:E1.
  apply check_items_state in E1 as ->.
  destruct r1 as [[]| |]; intros [= <- <-]; exact E.
Qed.

(** *** Identity resolution *)

(** Building the key set touches nothing. *)
Lemma nagios_object_ids_state s r s' :
  nagios_object_ids s = (r, s') → s' = s.
Proof.
  unfold nagios_object_ids. unfold_monad.
  destruct (py_eq_zero _).
  - destruct (is_None _); cbn; congruence.
  - destruct (type (params s)); cbn;
      repeat match goal with
        | |- context [match object_type_keys ?t with _ => _ end] =>
            destruct (object_type_keys t); cbn
        | |- context [if is_None ?v then _ else _] => destruct (is_None v); cbn
        end; congruence.
Qed.

Lemma nagios_object_ids_missing s k :
  demanded_key (type (params s)) (parameters (params s)) = Some k →
  dict_get (parameters (params s)) k = VNone →
  ∃ f, kind_of f = missing_required_attribute
       ∧ nagios_object_ids s = (Failed f, s).
Proof.
  unfold demanded_key, nagios_object_ids. unfold_monad.
  destruct (py_eq_zero _).
  - intros [= <-] ->. cbn. eexists; split; [|reflexivity]; reflexivity.
  - destruct (type (params s)) eqn:Et; cbn; try discriminate;
      intros Hk Hd; first [injection Hk as <- | rewrite Hk]; cbn;
      rewrite Hd; cbn; eexists; (split; [|reflexivity]); reflexivity.
Qed.

(** A failure while building the key set is a failure of both reconciler
    paths, in the same state. *)
Lemma reconcile_ids_failed s f :
  nagios_object_ids s = (Failed f, s) →
  get_nagios_object s = (Failed f, s)
  ∧ create_nagios_object s = (Failed f, s)
  ∧ delete_nagios_object s = (Failed f, s)
  ∧ reconcile s = (Failed f, s).
Proof.
  intros H.
  assert (Hg : get_nagios_object s = (Failed f, s)).
  { unfold get_nagios_object. unfold_monad. by rewrite H. }
  assert (Hc : create_nagios_object s = (Failed f, s)).
  { unfold create_nagios_object. unfold_monad. by rewrite Hg. }
  assert (Hd : delete_nagios_object s = (Failed f, s)).
  { unfold delete_nagios_object. unfold_monad. by rewrite Hg. }
  repeat split; try done.
  unfold reconcile. unfold_monad. by destruct (decide _).
Qed.

Lemma finish_reconcile_failed s f s' :
  reconcile s = (Failed f, s') → finish s = (Failed f, s').
Proof. intros H. unfold finish. unfold_monad. by rewrite H. Qed.

(** The lookup with more than one match. *)
Lemma lookup_ambiguous s ids l :
  objects_filter (world s) (type (params s)) ids = inr l →
  1 < length l →
  lookup_nagios_object ids s
  = (Failed AmbiguousMatch, logged s [EFilter (type (params s)) ids]).
Proof.
  intros H Hl. unfold lookup_nagios_object. unfold_monad. unfold_calls.
  rewrite H. cbn. destruct l as [|o l]; [cbn in Hl; lia|].
  destruct (decide _) as [|n]; [reflexivity|]. by destruct n.
Qed.

Lemma lookup_none s ids :
  objects_filter (world s) (type (params s)) ids = inr [] →
  lookup_nagios_object ids s
  = (Returned None, logged s [EFilter (type (params s)) ids]).
Proof.
  intros H. unfold lookup_nagios_object. unfold_monad. unfold_calls.
  by rewrite H.
Qed.

Lemma lookup_one s ids o :
  objects_filter (world s) (type (params s)) ids = inr [o] →
  lookup_nagios_object ids s
  = (Returned (Some o), logged s [EFilter (type (params s)) ids]).
Proof.
  intros H. unfold lookup_nagios_object. unfold_monad. unfold_calls.
  rewrite H. cbn. destruct (decide _) as [Hl|]; [cbn in Hl; lia|reflexivity].
Qed.

(** Whatever the lookup answers, it changes neither the parameters nor
    the world, and logs at most itself. *)
Lemma get_nagios_object_frame s r s' :
  get_nagios_object s = (r, s') →
  params s' = params s ∧ world s' = world s
  ∧ ∃ es, log s' = (log s ++ es)%list ∧ no_mutation es.
Proof.
  unfold get_nagios_object. unfold_monad.
  destruct (nagios_object_ids s) as [r0 s0] eqn:E.
  apply nagios_object_ids_state in E as ->.
  destruct r0 as [ids| |].
  2,3: intros [= <- <-]; repeat split; exists []; rewrite app_nil_r;
       split; [done|constructor].
  unfold lookup_nagios_object. unfold_monad. unfold_calls.
  destruct (objects_filter _ _ _) as [ex|l]; cbn.
  - intros [= <- <-]. cbn. repeat split. eexists; split; [done|].
    by repeat constructor.
  - destruct l as [|o l]; [|destruct (decide _)]; intros [= <- <-]; cbn;
      repeat split; eexists; (split; [done|]); by repeat constructor.
Qed.

(** A lookup that returns has logged itself and nothing else. *)
Lemma get_nagios_object_returned s found s1 :
  get_nagios_object s = (Returned found, s1) →
  ∃ ids, s1 = logged s [EFilter (type (params s)) ids].
Proof.
  unfold get_nagios_object. unfold_monad.
  destruct (nagios_object_ids s) as [[ids|f0|e0] s0] eqn:Eids;
    apply nagios_object_ids_state in Eids as ->; [|discriminate..].
  unfold lookup_nagios_object. unfold_monad. unfold_calls.
  destruct (objects_filter _ _ _) as [ex|[|o l]]; cbn; [discriminate| |].
  - intros [= <- <-]. by exists ids.
  - destruct (decide _); cbn; [discriminate|]. intros [= <- <-]. by exists ids.
Qed.

(** The key set depends on the declaration only. *)
Lemma nagios_object_ids_declaration s s' :
  type (params s) = type (params s') →
  parameters (params s) = parameters (params s') →
  (nagios_object_ids s).1 = (nagios_object_ids s').1.
Proof.
  intros Ht Hp. unfold nagios_object_ids. unfold_monad. rewrite Ht, Hp.
  destruct (py_eq_zero _).
  - by destruct (is_None _).
  - destruct (type (params s')); cbn; try done;
      repeat match goal with
        | |- context [match object_type_keys ?t with _ => _ end] =>
            destruct (object_type_keys t); cbn
        | |- context [if is_None ?v then _ else _] => destruct (is_None v); cbn
        end; done.
Qed.

Lemma main_fails_in_reconcile ps w s1 f s' :
  preflight (start ps w) = (Returned (), s1) →
  reconcile s1 = (Failed f, s') →
  main (start ps w) = (Failed f, s').
Proof.
  intros Hpre Hrec. rewrite main_split, Hpre.
  by apply finish_reconcile_failed.
Qed.

(** C1 (as amended).  Once the environment checks and the type check of
    the values have passed, a declaration without the attribute its key
    set demands (absent or null: [name] for a template,
    [service_description] for a service, the library's key for a type
    with a single key) makes the invocation fail with a
    missing-required-attribute error, and the log of effects is still
    empty: nothing was looked up, created, updated, deleted or written.
    The two dependency types demand no attribute. *)
Theorem missing_demanded_key_fails ps w s1 k :
  preflight (start ps w) = (Returned (), s1) →
  demanded_key (type ps) (parameters ps) = Some k →
  dict_get (parameters ps) k = VNone →
  ∃ f s', main (start ps w) = (Failed f, s')
          ∧ kind_of f = missing_required_attribute
          ∧ log s' = [].
Proof.
  intros Hpre Hk Hnone.
  destruct (preflight_frame _ _ _ Hpre) as [Hlog (_ & Ht & Hp & _)].
  cbn in Hlog, Ht, Hp.
  destruct (nagios_object_ids_missing s1 k) as (f & Hf & Hids).
  { by rewrite Ht, Hp. }
  { by rewrite Hp. }
  exists f, s1. split; [|done].
  eapply main_fails_in_reconcile; [done|].
  by apply reconcile_ids_failed.
Qed.

(** C2.  When the lookup made for the declaration's key set answers
    with more than one object, the invocation fails with the
    ambiguous-match error; the lookup is the only effect it made, so
    nothing was mutated and none of the matches was picked. *)
Theorem ambiguous_match_fails ps w s1 ids l :
  preflight (start ps w) = (Returned (), s1) →
  (nagios_object_ids (start ps w)).1 = Returned ids →
  objects_filter (world s1) (type ps) ids = inr l →
  1 < length l →
  ∃ s', main (start ps w) = (Failed AmbiguousMatch, s')
        ∧ kind_of AmbiguousMatch = ambiguous_match
        ∧ log s' = [EFilter (type ps) ids]
        ∧ no_mutation (log s')
        ∧ world s' = world s1.
Proof.
  intros Hpre Hids Hfilter Hlen.
  destruct (preflight_frame _ _ _ Hpre) as [Hlog (_ & Ht & Hp & _)].
  cbn in Hlog, Ht, Hp.
  assert (Hids1 : nagios_object_ids s1 = (Returned ids, s1)).
  { destruct (nagios_object_ids s1) as [r s0] eqn:E.
    pose proof (nagios_object_ids_state _ _ _ E) as ->.
    rewrite <- Hids, <- (nagios_object_ids_declaration s1 (start ps w)), E; done. }
  assert (Hget : get_nagios_object s1
                 = (Failed AmbiguousMatch, logged s1 [EFilter (type ps) ids])).
  { unfold get_nagios_object. unfold_monad. rewrite Hids1, <- Ht.
    apply (lookup_ambiguous _ _ l); [by rewrite Ht|done]. }
  exists (logged s1 [EFilter (type ps) ids]).
  split; [|cbn; rewrite Hlog; repeat split; by repeat constructor].
  eapply main_fails_in_reconcile; [done|].
  unfold reconcile, create_nagios_object, delete_nagios_object. unfold_monad.
  destruct (decide _); by rewrite Hget.
Qed.

(** C10.  With [register] equal to 0 in the attribute map, whatever the
    object type: the key set is the single attribute [name], and when
    [name] is absent the lookup, both reconciler paths and the
    reconciliation fail with the missing-template-name error in the state
    they started in, so before any lookup or mutation. *)
Theorem template_identified_by_name s :
  parameters (params s) !! "register" = Some (VInt 0) →
  (∀ v, parameters (params s) !! "name" = Some v → v ≠ VNone →
        nagios_object_ids s = (Returned {[ "name" := v ]}, s)
        ∧ get_nagios_object s = lookup_nagios_object {[ "name" := v ]} s)
  ∧ (parameters (params s) !! "name" = None →
     let f := TemplateKeyMissing "name" (type (params s)) in
     kind_of f = missing_required_attribute
     ∧ get_nagios_object s = (Failed f, s)
     ∧ create_nagios_object s = (Failed f, s)
     ∧ delete_nagios_object s = (Failed f, s)
     ∧ reconcile s = (Failed f, s)).
Proof.
  intros Hreg.
  assert (Hids : nagios_object_ids s
    = ((if is_None (dict_get (parameters (params s)) "name")
        then Failed (TemplateKeyMissing "name" (type (params s)))
        else Returned {[ "name" := dict_get (parameters (params s)) "name" ]}), s)).
  { unfold nagios_object_ids, dict_get_default. unfold_monad.
    rewrite Hreg. cbn. by destruct (is_None _). }
  split.
  - intros v Hv Hne. unfold dict_get in Hids. rewrite Hv in Hids. cbn in Hids.
    assert (is_None v = false) as Hn by (by destruct v).
    rewrite Hn in Hids. split; [done|].
    unfold get_nagios_object. unfold_monad. by rewrite Hids.
  - intros Hname f. unfold dict_get in Hids. rewrite Hname in Hids. cbn in Hids.
    split; [done|]. by apply reconcile_ids_failed.
Qed.

(** *** Which failures a computation can end in *)

Lemma fails_only_ret {A} P (a : A) : fails_only P (mret a : M A).
Proof. intros s f s'. unfold_monad. congruence. Qed.

Lemma fails_only_fail {A} (P : failure → Prop) f :
  P f → fails_only P (fail_json f : M A).
Proof. intros HP s f' s'. unfold_monad. congruence. Qed.

Lemma fails_only_raise {A} P e : fails_only P (raise e : M A).
Proof. intros s f s'. unfold_monad. congruence. Qed.

Lemma fails_only_param {A} P (name : Params → A) : fails_only P (param name : M A).
Proof. intros s f s'. unfold_monad. congruence. Qed.

Lemma fails_only_set_param P upd : fails_only P (set_param upd : M ()).
Proof. intros s f s'. unfold_monad. congruence. Qed.

Lemma fails_only_perform {A} P e (call : World → exn + (World * A)) :
  fails_only P (perform e call : M A).
Proof.
  intros s f s'. unfold perform. destruct (call _) as [|[]]; congruence.
Qed.

Lemma fails_only_request {A} (P : failure → Prop) e
  (call : World → answer (World * A)) :
  (∀ message, P (FrameworkFailed message)) →
  fails_only P (request e call : M A).
Proof.
  intros HP s f s'. unfold request.
  destruct (call _) as [[]| |]; try congruence. intros [= <- <-]. apply HP.
Qed.

Lemma fails_only_bind {A B} P (m : M A) (k : A → M B) :
  fails_only P m → (∀ a, fails_only P (k a)) → fails_only P (m ≫= k).
Proof.
  intros Hm Hk s f s'. unfold_monad.
  destruct (m s) as [[a|f0|e] s0] eqn:E.
  - apply Hk.
  - intros [= <- <-]. eapply Hm, E.
  - congruence.
Qed.

Lemma fails_only_try_except {A} P (body : M A) (handler : exn → M A) :
  fails_only P body → (∀ e, fails_only P (handler e)) →
  fails_only P (try_except body handler).
Proof.
  intros Hb Hh s f s'. unfold try_except.
  destruct (body s) as [[a|f0|e] s0] eqn:E.
  - congruence.
  - intros [= <- <-]. eapply Hb, E.
  - apply Hh.
Qed.

Ltac fails_only_step :=
  first
    [ apply fails_only_ret
    | apply fails_only_param
    | apply fails_only_set_param
    | apply fails_only_raise
    | apply fails_only_perform
    | apply fails_only_request; solve [cbn; congruence | done]
    | apply fails_only_fail; solve [cbn; congruence | done]
    | apply fails_only_try_except; [|intros ?]
    | apply fails_only_bind; [|intros ?] ].

Ltac fails_only_cases :=
  repeat first
    [ fails_only_step
    | match goal with
      | |- fails_only _ (if ?b then _ else _) => destruct b
      | |- fails_only _ (match ?x with _ => _ end) => destruct x
      | |- fails_only _ (let '(_, _) := ?x in _) => destruct x
      end ].

Lemma get_nagios_object_fails_only :
  fails_only not_invalid_value get_nagios_object.
Proof.
  unfold get_nagios_object, nagios_object_ids, lookup_nagios_object,
    call_filter, not_invalid_value.
  fails_only_cases.
Qed.

Lemma reconcile_fails_only : fails_only not_invalid_value reconcile.
Proof.
  pose proof get_nagios_object_fails_only as Hget.
  unfold reconcile, create_nagios_object, delete_nagios_object, call_save,
    call_delete, call_backup_local, call_string_to_class.
  unfold not_invalid_value in *.
  repeat first
    [ exact Hget
    | fails_only_step
    | match goal with
      | |- fails_only _ (if ?b then _ else _) => destruct b
      | |- fails_only _ (match ?x with _ => _ end) => destruct x
      end ].
Qed.

Lemma conclude_fails_only r : fails_only not_invalid_value (conclude r).
Proof.
  destruct r as [[[[[changed file] attrs] before] after] backup_file].
  unfold conclude, validate_nagios_configuration, call_cleanup,
    call_atomic_move, call_verify_config,
    call_set_fs_attributes_if_different, not_invalid_value.
  fails_only_cases.
Qed.

Lemma finish_fails_only : fails_only not_invalid_value finish.
Proof.
  apply fails_only_bind; [apply reconcile_fails_only|apply conclude_fails_only].
Qed.

(** *** The type check of the attribute values *)

Lemma bad_item_spec v : bad_item v = true ↔ ¬ null_int_or_str v.
Proof.
  destruct v as [|b|z|s|f|r]; cbn; try (intuition congruence).
  case_bool_decide; cbn; intuition congruence.
Qed.

Lemma check_items_ok items (s : module_state) :
  Forall (λ kv : string * value, bad_item kv.2 = false) items →
  check_items items s = (Returned (), s).
Proof.
  induction 1 as [|[k v] items Hv _ IH]; cbn; unfold_monad; [done|].
  cbn in Hv. by rewrite Hv.
Qed.

Lemma check_items_bad items (s : module_state) :
  Exists (λ kv : string * value, bad_item kv.2 = true) items →
  ∃ k v, (k, v) ∈ items ∧ bad_item v = true
         ∧ check_items items s = (Failed (InvalidParameterItem k), s).
Proof.
  induction items as [|[k v] items IH]; intros Hex; [by inversion Hex|].
  cbn. unfold_monad. destruct (bad_item v) eqn:Hv.
  - exists k, v. repeat split; [left|done].
  - destruct IH as (k' & v' & Hin & Hbad & Hrun).
    { inversion Hex; subst; [cbn in *; congruence|done]. }
    exists k', v'. repeat split; [by right|done|done].
Qed.

(** C8 (as amended).  Once the environment checks have passed (the
    library is there, the configuration file exists, the validator is
    found when validation is asked for), the invocation fails with the
    invalid-attribute-value error if and only if some supplied value is
    not null, not a string and not an integer of Python's [int] type: a
    boolean is refused, and so is an integer beyond [sys.maxint], which
    is a [long].  Such a failure comes before the reconciliation: the log
    of effects is empty, and the key it names holds such a value. *)
Theorem invalid_value_fails ps w s0 :
  check_environment (start ps w) = (Returned (), s0) →
  (fails_for_invalid_value ps w ↔ has_refused_value ps)
  ∧ (∀ k s', main (start ps w) = (Failed (InvalidParameterItem k), s') →
             log s' = []
             ∧ ∃ v, parameters ps !! k = Some v ∧ ¬ null_int_or_str v).
Proof.
  intros Henv.
  destruct (check_environment_frame _ _ _ Henv) as [Hlog (_ & _ & Hp & _)].
  cbn in Hlog, Hp.
  assert (Hpre : preflight (start ps w)
                 = check_items (map_to_list (parameters ps)) s0).
  { unfold preflight. unfold_monad. by rewrite Henv, Hp. }
  pose proof (main_split (start ps w)) as Hmain. rewrite Hpre in Hmain.
  destruct (decide (Exists (λ kv : string * value, bad_item kv.2 = true)
                      (map_to_list (parameters ps)))) as [Hex|Hall].
  - destruct (check_items_bad _ s0 Hex) as (k & v & Hin & Hbad & Hrun).
    rewrite Hrun in Hmain.
    apply elem_of_map_to_list in Hin. apply bad_item_spec in Hbad.
    split; [split|].
    + intros _. by exists k, v.
    + intros _. by exists k, s0.
    + intros k' s' Hfail. rewrite Hmain in Hfail.
      injection Hfail as <- <-. split; [done|by exists v].
  - apply not_Exists_Forall in Hall; [|intros ?; apply _].
    assert (Hok : Forall (λ kv : string * value, bad_item kv.2 = false)
                    (map_to_list (parameters ps))).
    { eapply Forall_impl; [exact Hall|]. intros [k v] Hn. cbn in *.
      by destruct (bad_item v). }
    rewrite (check_items_ok _ s0 Hok) in Hmain.
    assert (Hnever : ∀ k s', main (start ps w)
                             ≠ (Failed (InvalidParameterItem k), s')).
    { intros k s' Hfail. rewrite Hmain in Hfail.
      by apply finish_fails_only in Hfail. }
    split; [split|].
    + intros (k & s' & Hfail). by apply Hnever in Hfail.
    + intros (k & v & Hk & Hv). apply bad_item_spec in Hv.
      apply elem_of_map_to_list in Hk.
      rewrite Forall_forall in Hok. apply Hok in Hk. cbn in Hk. congruence.
    + intros k s' Hfail. by apply Hnever in Hfail.
Qed.

(** *** Effects are only ever added *)












(** And after one that changed nothing: no validation, only the call
    that sets the file attributes; the run ends as that call does, and
    the change reported is the one it answers. *)
Lemma conclude_unchanged file attrs before after backup_file s :
  let ps := set_path file (params s) in
  let file_args := load_file_common_arguments ps in
  let s3 := {| params := ps; world := world s;
               log := (log s ++ [ESetFsAttributes file_args false])%list |} in
  match set_fs_attributes_if_different (world s) file_args false with
  | Done (w3, c) =>
      ∃ r, conclude (false, file, attrs, before, after, backup_file) s
           = (Returned r, {| params := ps; world := w3; log := log s3 |})
           ∧ res_changed r = c
           ∧ res_path r = file ∧ res_nagios_object r = attrs
  | Throws e =>
      conclude (false, file, attrs, before, after, backup_file) s
      = (Raised e, s3)
  | Exits message =>
      conclude (false, file, attrs, before, after, backup_file) s
      = (Failed (FrameworkFailed message), s3)
  end.
Proof.
  intros ps file_args s3. unfold conclude. unfold_monad. unfold_calls. cbn.
  fold ps. fold file_args.
  destruct (set_fs_attributes_if_different _ _ _) as [[w c]| |]; cbn;
    [|done..].
  eexists. split; [reflexivity|done].
Qed.

(** *** The present path on an existing object *)

Section Attributes.

(** The library's reading of an attribute, [nagios_object[key]], and the
    two facts about [set_attribute] the update relies on: an attribute
    reads as it was last set, and setting one dirties the object only if
    the value is new. *)
Variable get_attribute : Obj → string → value.

Hypothesis get_set_attribute : ∀ o k v k',
  get_attribute (set_attribute o k v) k'
  = if decide (k' = k) then v else get_attribute o k'.

Hypothesis dirty_set_attribute : ∀ o k v,
  is_dirty (set_attribute o k v) = true →
  is_dirty o = true ∨ get_attribute o k ≠ v.

(** And the other way round, for the second of two runs: setting an
    attribute to a value it does not read as dirties the object, and an
    object stays dirty whatever is set next. *)
Hypothesis set_attribute_dirties : ∀ o k v,
  get_attribute o k ≠ v → is_dirty (set_attribute o k v) = true.

Hypothesis set_attribute_stays_dirty : ∀ o k v,
  is_dirty o = true → is_dirty (set_attribute o k v) = true.

Lemma foldl_set_attribute_other (l : list (string * value)) o k :
  k ∉ l.*1 →
  get_attribute (foldl (λ o kv, set_attribute o kv.1 kv.2) o l) k
  = get_attribute o k.
Proof.
  revert o. induction l as [|[k0 v0] l IH]; intros o Hk; cbn; [done|].
  cbn in Hk. apply not_elem_of_cons in Hk as [Hne Hk].
  rewrite IH, get_set_attribute; [|done]. by rewrite decide_False.
Qed.

Lemma foldl_set_attribute_in (l : list (string * value)) o k v :
  NoDup l.*1 → (k, v) ∈ l →
  get_attribute (foldl (λ o kv, set_attribute o kv.1 kv.2) o l) k = v.
Proof.
  revert o. induction l as [|[k0 v0] l IH]; intros o Hnd Hin; cbn.
  { by apply elem_of_nil in Hin. }
  cbn in Hnd. apply NoDup_cons in Hnd as [Hk0 Hnd].
  apply elem_of_cons in Hin as [[= -> ->]|Hin].
  - rewrite foldl_set_attribute_other, get_set_attribute; [|done].
    by rewrite decide_True.
  - by apply IH.
Qed.

Lemma foldl_set_attribute_dirty (l : list (string * value)) o :
  NoDup l.*1 →
  is_dirty (foldl (λ o kv, set_attribute o kv.1 kv.2) o l) = true →
  is_dirty o = true ∨ ∃ k v, (k, v) ∈ l ∧ get_attribute o k ≠ v.
Proof.
  revert o. induction l as [|[k0 v0] l IH]; intros o Hnd Hd; cbn in *.
  { by left. }
  apply NoDup_cons in Hnd as [Hk0 Hnd].
  destruct (IH _ Hnd Hd) as [Hd0|(k & v & Hin & Hne)].
  - destruct (dirty_set_attribute _ _ _ Hd0) as [|Hne]; [by left|].
    right. exists k0, v0. split; [left|done].
  - right. exists k, v. split; [by right|].
    rewrite get_set_attribute in Hne. rewrite decide_False in Hne; [done|].
    intros ->. apply Hk0. apply list_elem_of_fmap. by exists (k0, v).
Qed.

(** Every supplied attribute reads as supplied after the loop, the
    others as before. *)
Lemma set_attributes_get o (ps : gmap string value) k :
  get_attribute (set_attributes o ps) k
  = match ps !! k with Some v => v | None => get_attribute o k end.
Proof.
  unfold set_attributes. destruct (ps !! k) as [v|] eqn:E.
  - apply foldl_set_attribute_in; [apply NoDup_fst_map_to_list|].
    by apply elem_of_map_to_list.
  - apply foldl_set_attribute_other. intros Hin.
    apply list_elem_of_fmap in Hin as ([k' v] & -> & Hin).
    apply elem_of_map_to_list in Hin. cbn in E. congruence.
Qed.

Lemma set_attributes_dirty o (ps : gmap string value) :
  is_dirty o = false →
  is_dirty (set_attributes o ps) = true →
  ∃ k v, ps !! k = Some v ∧ get_attribute o k ≠ v.
Proof.
  intros Hclean Hd. unfold set_attributes in Hd.
  apply foldl_set_attribute_dirty in Hd as [Hd|(k & v & Hin & Hne)];
    [congruence| |apply NoDup_fst_map_to_list].
  exists k, v. split; [by apply elem_of_map_to_list|done].
Qed.


(** C5.  On the present path, for a declaration whose lookup found the
    object [o] (clean, as the library hands it over) and with the update
    flag set: the object the path goes on with has every supplied
    attribute set to the supplied value, null included, and the other
    attributes as before; the path reports changed exactly when that
    object is dirty, which takes a supplied attribute that differed from
    the value the object had; a file is written (save is called, on that
    object) only then, and when nothing differs the path ends in the
    state the lookup left, without any write. *)
Theorem update_applies_and_reports s s1 o :
  get_nagios_object s = (Returned (Some o), s1) →
  update (params s) = true →
  is_dirty o = false →
  let o' := set_attributes o (parameters (params s)) in
  (∀ k v, parameters (params s) !! k = Some v → get_attribute o' k = v)
  ∧ (∀ k, parameters (params s) !! k = None →
          get_attribute o' k = get_attribute o k)
  ∧ (is_dirty o' = true →
     ∃ k v, parameters (params s) !! k = Some v ∧ get_attribute o k ≠ v)
  ∧ (is_dirty o' = false →
     create_nagios_object s
     = (Returned (false, get_filename o, Some (defined_attributes o'),
                  obj_str o, obj_str o, Some ""), s1))
  ∧ (∀ changed file attrs before after backup_file s2,
       create_nagios_object s
       = (Returned (changed, file, attrs, before, after, backup_file), s2) →
       changed = is_dirty o'
       ∧ (∀ x, ESave x ∈ log s2 → ESave x ∈ log s1 ∨ (changed = true ∧ x = o'))).
Proof.
  intros Hget Hupd Hclean o'.
  destruct (get_nagios_object_frame _ _ _ Hget) as (Hps & Hw & _).
  split; [|split; [|split; [|split]]].
  - intros k v Hk. subst o'. by rewrite set_attributes_get, Hk.
  - intros k Hk. subst o'. by rewrite set_attributes_get, Hk.
  - intros Hd. by apply set_attributes_dirty.
  - intros Hd. unfold create_nagios_object. unfold_monad.
    rewrite Hget. cbn. rewrite Hupd. fold o'. by rewrite Hd.
  - intros changed file attrs before after backup_file s2.
    unfold create_nagios_object. unfold_monad. unfold_calls.
    rewrite Hget. cbn. rewrite Hupd. fold o'.
    destruct (is_dirty o') eqn:Hd; cbn.
    + destruct (backup (params s) || validate (params s)); cbn.
      * destruct (backup_local _ _) as [[w1 b]| |]; cbn; [|congruence..].
        destruct (obj_save w1 o') as [ex|[w2 o'']]; cbn; [congruence|].
        intros [= <- <- <- <- <- <- <-]. split; [done|]. cbn.
        intros x Hx. rewrite !elem_of_app in Hx.
        destruct Hx as [[Hx|Hx]|Hx]; [by left| |].
        -- apply list_elem_of_singleton in Hx. congruence.
        -- apply list_elem_of_singleton in Hx as [= ->]. by right.
      * destruct (obj_save _ o') as [ex|[w2 o'']]; cbn; [congruence|].
        intros [= <- <- <- <- <- <- <-]. split; [done|]. cbn.
        intros x Hx. rewrite elem_of_app in Hx.
        destruct Hx as [Hx|Hx]; [by left|].
        apply list_elem_of_singleton in Hx as [= ->]. by right.
    + intros [= <- <- <- <- <- <- <-]. split; [done|]. intros x Hx. by left.
Qed.







End Attributes.

(** *** After a change the validator accepts *)

(** The rest of [main] after a change, when the validator, if it is run,
    accepts the configuration and the file attributes can be set. *)
Lemma conclude_accepted file attrs before after backup_file s w3 c :
  (validate (params s) = true →
   ∃ out err,
     verify_config (world s) (nagios_bin (params s)) (nagios_cfg (params s))
     = (true, out, err)) →
  let ps := set_path file (params s) in
  set_fs_attributes_if_different (validated (params s) backup_file (world s))
    (load_file_common_arguments ps) true = Done (w3, c) →
  ∃ r,
    conclude (true, file, attrs, before, after, backup_file) s
    = (Returned r,
       {| params := ps; world := w3;
          log := (log s ++ accepting (params s) backup_file
                             (load_file_common_arguments ps))%list |})
    ∧ res_changed r = true
    ∧ res_path r = file
    ∧ res_nagios_object r = attrs
    ∧ res_diff r = (if _diff (params s)
                    then Some {| before_header := file; before := before;
                                 after_header := file; after := after |}
                    else None)
    ∧ res_backup_file r = (if backup (params s) then Some backup_file else None).
Proof.
  intros Hverify ps. unfold validated, accepting, discards.
  unfold conclude, validate_nagios_configuration. unfold_monad. unfold_calls.
  cbn. fold ps. destruct (validate (params s)) eqn:Hv; cbn.
  - destruct (Hverify eq_refl) as (out & err & ->). cbn.
    destruct (negb (backup (params s)) && bool_decide (backup_file ≠ None));
      cbn; intros ->; cbn; eexists;
      (split; [by rewrite <- ?app_assoc|done]).
  - intros ->. cbn. eexists. by split.
Qed.

(** *** The absent path *)

(** The absent path when the lookup found an object and the delete
    went through. *)
Lemma delete_found sc s1 o w1 backup_file w2 o2 :
  state (params sc) = absent →
  get_nagios_object sc = (Returned (Some o), s1) →
  backup_before_delete (params sc) (world sc) (get_filename o) w1 backup_file →
  obj_delete w1 o false true = inr (w2, o2) →
  reconcile sc
  = (Returned (true, get_filename o, Some (defined_attributes o2), obj_str o,
               "", backup_file),
     {| params := params sc; world := w2;
        log := (log s1 ++ committing (params sc) (get_filename o)
                            (EDelete o false true))%list |}).
Proof.
  intros Hst Hget Hb Hdel.
  destruct (get_nagios_object_frame _ _ _ Hget) as (Hps & Hw & _).
  unfold reconcile. unfold_monad. rewrite Hst, decide_False; [|done].
  unfold delete_nagios_object. unfold_monad. unfold_calls.
  rewrite Hget. cbn. rewrite Hps. unfold backup_before_delete, committing in *.
  destruct (backup (params sc) || validate (params sc)); cbn.
  - destruct Hb as (b & Hb & ->). rewrite Hw, Hb. cbn. rewrite Hdel. cbn.
    by rewrite Hps, <- app_assoc.
  - destruct Hb as [-> ->]. rewrite Hw, Hdel. cbn. by rewrite Hps.
Qed.

Section AbsentPath.

(** From AnsibleModule: [load_file_common_arguments] gives no argument at
    all for parameters without a path, and
    [set_fs_attributes_if_different] then raises on its
    [file_args['path']]. *)
Hypothesis file_arguments_need_path : ∀ w ps changed,
  path ps = None →
  set_fs_attributes_if_different w (load_file_common_arguments ps) changed
  = Throws (KeyError "path").

(** C7.  A declaration of absence, on [main].  When the lookup finds
    nothing, the absent path hands [None] on as the path, and the
    invocation does not report: after the lookup it calls
    [set_fs_attributes_if_different], which raises [KeyError] for the
    missing path; the world is as the checks left it.  When the lookup
    finds [o], the backup is taken if one is due, [o] is deleted
    non-recursively with cleanup of the related items, and, the
    validator accepting the result if it is run and the file attributes
    being set, the invocation reports changed, the file [o] came from
    and, in the diff, its text before the deletion. *)
Theorem absent_path ps w sc :
  state ps = absent →
  preflight (start ps w) = (Returned (), sc) →
  (∀ s1, get_nagios_object sc = (Returned None, s1) →
         ∃ ids s',
           main (start ps w) = (Raised (KeyError "path"), s')
           ∧ world s' = world sc
           ∧ log s'
             = [EFilter (type ps) ids;
                ESetFsAttributes
                  (load_file_common_arguments (set_path None (params sc)))
                  false])
  ∧ (∀ s1 o w1 backup_file w2 o2 w3 c,
       get_nagios_object sc = (Returned (Some o), s1) →
       backup_before_delete ps (world sc) (get_filename o) w1 backup_file →
       obj_delete w1 o false true = inr (w2, o2) →
       (validate ps = true →
        ∃ out err,
          verify_config w2 (nagios_bin (params sc)) (nagios_cfg (params sc))
          = (true, out, err)) →
       set_fs_attributes_if_different (validated ps backup_file w2)
         (load_file_common_arguments (set_path (get_filename o) (params sc)))
         true = Done (w3, c) →
       ∃ res s',
         main (start ps w) = (Returned res, s')
         ∧ res_changed res = true
         ∧ res_path res = get_filename o
         ∧ res_diff res
           = (if _diff ps
              then Some {| before_header := get_filename o;
                           before := obj_str o;
                           after_header := get_filename o; after := "" |}
              else None)
         ∧ world s' = w3
         ∧ log s'
           = (log s1 ++ committing ps (get_filename o) (EDelete o false true)
              ++ accepting (params sc) backup_file
                   (load_file_common_arguments
                      (set_path (get_filename o) (params sc))))%list).
Proof.
  intros Hst Hpre.
  destruct (preflight_frame _ _ _ Hpre)
    as [Hlog (_ & Ht & _ & Hs & _ & Hval & Hbk & Hd & _)].
  cbn in Hlog, Ht, Hs, Hval, Hbk, Hd.
  split.
  - intros s1 Hget.
    destruct (get_nagios_object_returned _ _ _ Hget) as [ids ->].
    assert (Hrec : reconcile sc
                   = (Returned (false, None, None, "", "", None),
                      logged sc [EFilter (type (params sc)) ids])).
    { unfold reconcile. unfold_monad. rewrite Hs, Hst, decide_False; [|done].
      unfold delete_nagios_object. unfold_monad. by rewrite Hget. }
    pose proof (conclude_unchanged None None "" "" None
                  (logged sc [EFilter (type (params sc)) ids])) as Hconclude.
    cbn zeta in Hconclude.
    rewrite file_arguments_need_path in Hconclude; [|done].
    exists ids. eexists. split; [|split].
    + rewrite main_split, Hpre. unfold finish. unfold_monad. rewrite Hrec.
      exact Hconclude.
    + done.
    + cbn. by rewrite Hlog, Ht.
  - intros s1 o w1 backup_file w2 o2 w3 c Hget Hb Hdel Hverify Hfs.
    pose proof (delete_found sc s1 o w1 backup_file w2 o2) as Hrec.
    unfold backup_before_delete, committing in Hrec.
    rewrite Hs, Hval, Hbk in Hrec.
    specialize (Hrec Hst Hget Hb Hdel).
    edestruct (conclude_accepted (get_filename o) (Some (defined_attributes o2))
                 (obj_str o) "" backup_file
                 {| params := params sc; world := w2;
                    log := (log s1 ++ committing ps (get_filename o)
                                        (EDelete o false true))%list |}
                 w3 c)
      as (res & Hrun & Hch & Hpath & _ & Hdiff & _).
    { cbn. by rewrite Hval. }
    { cbn. unfold validated, discards in *. by rewrite Hval, Hbk. }
    exists res. eexists. split; [|split; [done|split; [done|split]]].
    + rewrite main_split, Hpre. unfold finish. unfold_monad. rewrite Hrec.
      exact Hrun.
    + by rewrite Hdiff; cbn; rewrite Hd.
    + cbn. split; [done|]. by rewrite <- app_assoc.
Qed.

End AbsentPath.

(** *** A change with validation asked for *)

(** A reconciliation that reports a change while validation is asked for
    logged a lookup, then a backup, then the committing call, made in
    the world the backup left. *)
Lemma reconcile_changed_log s file attrs before after backup_file s2 :
  validate (params s) = true →
  reconcile s
  = (Returned (true, file, attrs, before, after, backup_file), s2) →
  ∃ ids f change w1 b,
    log s2 = (log s ++ [EFilter (type (params s)) ids; EBackupLocal f; change])%list
    ∧ is_commit change
    ∧ affected_file (params s) change f
    ∧ backup_local (world s) f = Done (w1, b)
    ∧ backup_file = Some b
    ∧ params s2 = params s.
Proof.
  intros Hv. unfold reconcile. unfold_monad.
  destruct (decide (state (params s) = present)) as [Hst|Hst].
  - unfold create_nagios_object. unfold_monad.
    destruct (get_nagios_object s) as [[found|f0|e0] s1] eqn:Hget;
      [|discriminate..].
    apply get_nagios_object_returned in Hget as [ids ->].
    rewrite Hv, orb_true_r. unfold_calls.
    destruct found as [o|]; cbn.
    + match goal with |- context [is_dirty ?x] => destruct (is_dirty x) end;
        cbn; [|discriminate].
      destruct (backup_local _ _) as [[w1 b]| |] eqn:Eb; cbn; [|discriminate..].
      destruct (obj_save _ _) as [ex|[w2 o2]]; cbn; [discriminate|].
      intros [= <- <- <- <- <- <-]. eexists _, _, _, _, _.
      split; [by rewrite <- !app_assoc|]. split; [done|].
      split; [left; exists o; split; [done|by left]|]. by rewrite Eb.
    + destruct (decide _); cbn; [discriminate|].
      destruct (backup_local _ _) as [[w1 b]| |] eqn:Eb; cbn; [|discriminate..].
      destruct (obj_save _ _) as [ex|[w2 o2]]; cbn; [discriminate|].
      intros [= <- <- <- <- <- <-]. eexists _, _, _, _, _.
      split; [by rewrite <- !app_assoc|]. split; [done|].
      split; [by right|]. by rewrite Eb.
  - unfold delete_nagios_object. unfold_monad.
    destruct (get_nagios_object s) as [[found|f0|e0] s1] eqn:Hget;
      [|discriminate..].
    apply get_nagios_object_returned in Hget as [ids ->].
    destruct found as [o|]; cbn; [|discriminate].
    rewrite Hv, orb_true_r. unfold_calls. cbn.
    destruct (backup_local _ _) as [[w1 b]| |] eqn:Eb; cbn; [|discriminate..].
    destruct (obj_delete _ _ _ _) as [ex|[w2 o2]]; cbn; [discriminate|].
    intros [= <- <- <- <- <- <-]. eexists _, _, _, _, _.
    split; [by rewrite <- !app_assoc|]. split; [done|].
    split; [left; exists o; split; [done|by right]|]. by rewrite Eb.
Qed.

(** *** Rollback after a failed validation *)

Lemma last_two {A} (l : list A) x y : last (l ++ [x; y])%list = Some y.
Proof.
  change [x; y] with ([x] ++ [y])%list. by rewrite app_assoc, last_snoc.
Qed.

(** The reconciliation of a present-state declaration whose change was
    saved, validation being asked for. *)
Lemma reconcile_saved sc s1 found o' f w1 b w2 o2 :
  state (params sc) = present →
  validate (params sc) = true →
  get_nagios_object sc = (Returned found, s1) →
  match found with
  | Some o =>
      o' = (if update (params sc) then set_attributes o (parameters (params sc))
            else o)
      ∧ f = get_filename o ∧ is_dirty o' = true
  | None =>
      parameters (params sc) !! "filename" = None
      ∧ o' = string_to_class (type (params sc)) (path (params sc))
               (parameters (params sc))
      ∧ f = get_filename o'
  end →
  backup_local (world sc) f = Done (w1, b) →
  obj_save w1 o' = inr (w2, o2) →
  ∃ before,
    reconcile sc
    = (Returned (true, get_filename o2, Some (defined_attributes o2), before,
                 obj_str o2, Some b),
       {| params := params sc; world := w2;
          log := (log s1 ++ [EBackupLocal f; ESave o'])%list |}).
Proof.
  intros Hst Hv Hget Hfound Hb Hs.
  destruct (get_nagios_object_frame _ _ _ Hget) as (Hps & Hw & _).
  unfold reconcile. unfold_monad. rewrite decide_True; [|done].
  unfold create_nagios_object. unfold_monad. unfold_calls.
  rewrite Hget, Hv, orb_true_r.
  destruct found as [o|].
  - destruct Hfound as (-> & -> & Hd). cbn. rewrite Hd. cbn.
    rewrite Hw, Hb. cbn. rewrite Hs. cbn. rewrite Hps, <- app_assoc.
    by eexists.
  - destruct Hfound as (Hfn & -> & ->). rewrite decide_False; cbn.
    + rewrite Hw, Hb. cbn. rewrite Hs. cbn. rewrite Hps, <- app_assoc.
      by eexists.
    + rewrite Hfn. by intros [? ?].
Qed.

(** The rest of [main] when the validator rejects the configuration. *)
Lemma conclude_rejected file attrs before after backup_file s out err :
  validate (params s) = true →
  verify_config (world s) (nagios_bin (params s)) (nagios_cfg (params s))
  = (false, out, err) →
  let undo := if decide (backup_file = Some "") then ECleanup file
              else EAtomicMove backup_file file in
  conclude (true, file, attrs, before, after, backup_file) s
  = (Failed (ValidationFailed (str_or out err)),
     {| params := set_path file (params s);
        world := if decide (backup_file = Some "")
                 then cleanup (world s) file
                 else atomic_move (world s) backup_file file;
        log := (log s
                ++ [EVerifyConfig (nagios_bin (params s)) (nagios_cfg (params s));
                    undo])%list |}).
Proof.
  intros Hv Hverify undo. subst undo.
  unfold conclude, validate_nagios_configuration. unfold_monad. unfold_calls.
  cbn. rewrite Hv. cbn. rewrite Hverify. cbn.
  destruct (decide _); cbn; by rewrite <- app_assoc.
Qed.

Lemma check_environment_world s r s' :
  check_environment s = (r, s') →
  world s' = world s ∨ ∃ cfg, world s' = set_Model_cfg_file cfg (world s).
Proof.
  unfold check_environment, get_nagios_bin, is_exe. unfold_monad.
  destruct HAS_LIB; cbn; [|intros [= <- <-]; by left].
  destruct s as [ps w l]; cbn.
  destruct (nagios_cfg ps) as [cfg|] eqn:Ecfg; cbn.
  - destruct (os_path_isfile w cfg); cbn; [|intros [= <- <-]; by left].
    destruct (validate ps); cbn; [|intros [= <- <-]; right; by eexists].
    destruct (nagios_bin ps) as [bin|]; cbn.
    + destruct (_ && _); intros [= <- <-]; right; by eexists.
    + destruct (environ_PATH _); cbn; [|intros [= <- <-]; right; by eexists].
      match goal with
      | |- context [get_nagios_bin_loop ?d ?p ?s] =>
          destruct (get_nagios_bin_loop d p s) as [r0 s0] eqn:E
      end.
      apply get_nagios_bin_loop_state in E as ->.
      destruct r0 as [found| |]; cbn;
        [destruct (decide (found = None))|..];
        intros [= <- <-]; right; by eexists.
  - destruct (validate ps); cbn; [|intros [= <- <-]; by left].
    destruct (nagios_bin ps) as [bin|]; cbn.
    + destruct (_ && _); intros [= <- <-]; by left.
    + destruct (environ_PATH _); cbn; [|intros [= <- <-]; by left].
      match goal with
      | |- context [get_nagios_bin_loop ?d ?p ?s] =>
          destruct (get_nagios_bin_loop d p s) as [r0 s0] eqn:E
      end.
      apply get_nagios_bin_loop_state in E as ->.
      destruct r0 as [found| |]; cbn;
        [destruct (decide (found = None))|..];
        intros [= <- <-]; by left.
Qed.

Lemma preflight_world s r s' :
  preflight s = (r, s') →
  world s' = world s ∨ ∃ cfg, world s' = set_Model_cfg_file cfg (world s).
Proof.
  unfold preflight. unfold_monad.
  destruct (check_environment s) as [r0 s0] eqn:E.
  apply check_environment_world in E.
  destruct r0 as [[]| |]; cbn; try (intros [= <- <-]; exact E).
  destruct (check_items _ s0) as [r1 s1] eqn:E1.
  apply check_items_state in E1 as ->.
  destruct r1 as [[]| |]; intros [= <- <-]; exact E.
Qed.

Section Rollback.

(** What the rollback relies on from the collaborators: assigning
    [Model.cfg_file] writes no file; a backup of an existing file is
    another, non-empty-named file with the same content; a save writes
    no file but the one of the saved object; moving a file puts its
    content at the destination; cleaning a file up removes it. *)
Hypothesis assignment_keeps_files : ∀ cfg w p,
  read_file (set_Model_cfg_file cfg w) p = read_file w p.

Hypothesis backup_local_copies : ∀ w f w' b,
  backup_local w (Some f) = Done (w', b) →
  is_Some (read_file w f) →
  b ≠ "" ∧ b ≠ f ∧ read_file w' b = read_file w f.

Hypothesis save_writes_own_file : ∀ w o w' o' p,
  obj_save w o = inr (w', o') →
  get_filename o' ≠ Some p →
  read_file w' p = read_file w p.

Hypothesis atomic_move_moves : ∀ w b f,
  is_Some (read_file w b) →
  read_file (atomic_move w (Some b) (Some f)) f = read_file w b.

Hypothesis cleanup_removes : ∀ w p, read_file (cleanup w (Some p)) p = None.

Lemma preflight_files ps w r sc p :
  preflight (start ps w) = (r, sc) → read_file (world sc) p = read_file w p.
Proof.
  intros Hpre. apply preflight_world in Hpre as [->|[cfg ->]]; [done|].
  apply assignment_keeps_files.
Qed.

(** C3.  An update of an existing object [o] of the file [f], with
    validation asked for: the file is backed up, the updated object is
    saved and stays in [f], and the validator rejects the configuration.
    Then the invocation fails with the validator's output ([stdout], or
    [stderr] when that is empty) in its message, its last effect is the
    move of the backup onto [f], and [f] reads as it did when the
    invocation started. *)
Theorem rollback_restores_updated_file ps w sc s1 o f w1 b w2 o2 out err :
  state ps = present → update ps = true → validate ps = true →
  preflight (start ps w) = (Returned (), sc) →
  get_nagios_object sc = (Returned (Some o), s1) →
  get_filename o = Some f →
  is_Some (read_file w f) →
  is_dirty (set_attributes o (parameters ps)) = true →
  backup_local (world sc) (Some f) = Done (w1, b) →
  obj_save w1 (set_attributes o (parameters ps)) = inr (w2, o2) →
  get_filename o2 = Some f →
  verify_config w2 (nagios_bin (params sc)) (nagios_cfg (params sc))
  = (false, out, err) →
  ∃ s', main (start ps w) = (Failed (ValidationFailed (str_or out err)), s')
        ∧ kind_of (ValidationFailed (str_or out err)) = validation_failure
        ∧ last (log s') = Some (EAtomicMove (Some b) (Some f))
        ∧ read_file (world s') f = read_file w f.
Proof.
  intros Hst Hupd Hv Hpre Hget Hf Hexists Hd Hb Hs Hf2 Hverify.
  destruct (preflight_frame _ _ _ Hpre)
    as [Hlog (_ & _ & Hp & Hs' & Hu & Hval & _)].
  cbn in Hlog, Hp, Hs', Hu, Hval.
  pose proof (preflight_files _ _ _ _ f Hpre) as Hfiles.
  rewrite <- Hfiles in Hexists.
  destruct (backup_local_copies _ _ _ _ Hb Hexists) as (Hne & Hbf & Hcopy).
  destruct (reconcile_saved sc s1 (Some o) (set_attributes o (parameters ps))
              (Some f) w1 b w2 o2) as [before Hrec];
    [by rewrite Hs'|by rewrite Hval|exact Hget| |exact Hb|exact Hs|].
  { by rewrite Hu, Hupd, Hp, Hf. }
  eexists. split; [|split; [done|]].
  - rewrite main_split, Hpre. unfold finish. unfold_monad. rewrite Hrec.
    rewrite Hf2. apply conclude_rejected; cbn; [by rewrite Hval|done].
  - cbn. destruct (decide (Some b = Some "")) as [[= Heq]|_]; [done|]. split.
    + apply last_two.
    + rewrite atomic_move_moves.
      * rewrite (save_writes_own_file _ _ _ _ b Hs); [|congruence].
        by rewrite Hcopy.
      * rewrite (save_writes_own_file _ _ _ _ b Hs); [|congruence].
        by rewrite Hcopy.
Qed.

(** C4.  The creation of a new object, with validation asked for, when
    there was nothing to back up ([backup_local] answers the empty
    string): the object is saved into the file [p] and the validator
    rejects the configuration.  Then the invocation fails with the
    validator's output in its message, its last effect is the cleanup of
    [p], and [p] is no longer there.  (The attributes hold no
    [filename], with which the object could not be constructed.) *)
Theorem rollback_deletes_created_file ps w sc s1 w1 w2 o2 p out err :
  state ps = present → validate ps = true →
  preflight (start ps w) = (Returned (), sc) →
  get_nagios_object sc = (Returned None, s1) →
  parameters ps !! "filename" = None →
  let o := string_to_class (type ps) (path ps) (parameters ps) in
  backup_local (world sc) (get_filename o) = Done (w1, "") →
  obj_save w1 o = inr (w2, o2) →
  get_filename o2 = Some p →
  verify_config w2 (nagios_bin (params sc)) (nagios_cfg (params sc))
  = (false, out, err) →
  ∃ s', main (start ps w) = (Failed (ValidationFailed (str_or out err)), s')
        ∧ kind_of (ValidationFailed (str_or out err)) = validation_failure
        ∧ ESave o ∈ log s'
        ∧ last (log s') = Some (ECleanup (Some p))
        ∧ read_file (world s') p = None.
Proof.
  intros Hst Hv Hpre Hget Hfn o Hb Hs Hp2 Hverify.
  destruct (preflight_frame _ _ _ Hpre)
    as [Hlog (Hpath & Ht & Hp & Hs' & _ & Hval & _)].
  cbn in Hlog, Hpath, Ht, Hp, Hs', Hval.
  destruct (reconcile_saved sc s1 None o (get_filename o) w1 "" w2 o2)
    as [before Hrec];
    [by rewrite Hs'|by rewrite Hval|exact Hget| |exact Hb|exact Hs|].
  { by rewrite Hpath, Ht, Hp. }
  eexists. split; [|split; [done|]].
  - rewrite main_split, Hpre. unfold finish. unfold_monad. rewrite Hrec.
    rewrite Hp2. apply conclude_rejected; cbn; [by rewrite Hval|done].
  - cbn. destruct (decide (Some "" = Some "")) as [_|]; [|done].
    split; [|split].
    + rewrite !elem_of_app. left. right. by repeat constructor.
    + apply last_two.
    + apply cleanup_removes.
Qed.

End Rollback.

(** *** The backup around a validated change *)

Section Backup.

(** From the collaborators: assigning [Model.cfg_file] writes no file; a
    backup of an existing file is another, non-empty-named file with
    the same content; cleaning a file up removes it; setting the file
    attributes changes no content. *)
Hypothesis assignment_keeps_files : ∀ cfg w p,
  read_file (set_Model_cfg_file cfg w) p = read_file w p.

Hypothesis backup_local_copies : ∀ w f w' b,
  backup_local w (Some f) = Done (w', b) →
  is_Some (read_file w f) →
  b ≠ "" ∧ b ≠ f ∧ read_file w' b = read_file w f.

Hypothesis cleanup_removes : ∀ w p, read_file (cleanup w (Some p)) p = None.

Hypothesis set_fs_attributes_keeps_files : ∀ w file_args changed w' c p,
  set_fs_attributes_if_different w file_args changed = Done (w', c) →
  read_file w' p = read_file w p.

(** C9.  With validation asked for and a change reported by the
    reconciliation: the effects so far are the lookup, a backup of the
    affected file and then the committing call, in this order, whether
    or not the caller asked for a backup; the committing call was made
    in the world [w1] the backup left, where, the affected file
    existing, the backup file [b] is another file that reads as the
    affected file did when the invocation started; and [b] is the backup
    file handed on.  When the validator then accepts the configuration
    and the file attributes are set, the invocation returns normally and
    reports changed; without the backup flag the backup file is cleaned
    up, is gone in the end and is not reported; with the flag it is
    reported and reads in the end as the committing call left it. *)
Theorem backup_around_validation ps w sc file attrs before after backup_file s2 :
  validate ps = true →
  preflight (start ps w) = (Returned (), sc) →
  reconcile sc
  = (Returned (true, file, attrs, before, after, backup_file), s2) →
  ∃ ids f change w1 b,
    log s2 = [EFilter (type ps) ids; EBackupLocal f; change]
    ∧ is_commit change
    ∧ affected_file (params sc) change f
    ∧ backup_local (world sc) f = Done (w1, b)
    ∧ backup_file = Some b
    ∧ (∀ p, f = Some p → is_Some (read_file w p) →
            b ≠ "" ∧ b ≠ p ∧ read_file w1 b = read_file w p)
    ∧ ∀ out err w3 c,
        verify_config (world s2) (nagios_bin (params sc)) (nagios_cfg (params sc))
        = (true, out, err) →
        set_fs_attributes_if_different (validated ps backup_file (world s2))
          (load_file_common_arguments (set_path file (params sc))) true
        = Done (w3, c) →
        ∃ r s3,
          main (start ps w) = (Returned r, s3)
          ∧ res_changed r = true
          ∧ log s3
            = (log s2
               ++ accepting (params sc) backup_file
                    (load_file_common_arguments (set_path file (params sc))))%list
          ∧ if backup ps
            then res_backup_file r = Some (Some b)
                 ∧ (∀ e, e ∈ log s3 → e ≠ ECleanup (Some b))
                 ∧ read_file (world s3) b = read_file (world s2) b
            else res_backup_file r = None
                 ∧ ECleanup (Some b) ∈ log s3
                 ∧ read_file (world s3) b = None.
Proof.
  intros Hv Hpre Hrec.
  destruct (preflight_frame _ _ _ Hpre)
    as [Hlog (_ & Ht & _ & _ & _ & Hval & Hbk & _)].
  cbn in Hlog, Ht, Hval, Hbk.
  destruct (reconcile_changed_log _ _ _ _ _ _ _ ltac:(by rewrite Hval) Hrec)
    as (ids & f & change & w1 & b & Hlog2 & Hcommit & Haff & Hb & Hbf & Hps2).
  exists ids, f, change, w1, b.
  rewrite Hlog, Ht in Hlog2. cbn in Hlog2.
  split; [done|]. split; [done|]. split; [done|]. split; [done|].
  split; [done|]. split.
  { intros p -> Hexists.
    rewrite <- (preflight_files assignment_keeps_files _ _ _ _ p Hpre) in Hexists.
    destruct (backup_local_copies _ _ _ _ Hb Hexists) as (? & ? & Hcopy).
    by rewrite Hcopy, (preflight_files assignment_keeps_files _ _ _ _ p Hpre). }
  intros out err w3 c Hverify Hfs.
  destruct s2 as [ps2 w2 l2]. cbn in Hps2, Hlog2, Hverify, Hfs. subst ps2.
  pose proof (conclude_accepted file attrs before after backup_file
                {| params := params sc; world := w2; log := l2 |} w3 c)
    as Hconclude.
  cbn -[conclude] in Hconclude. unfold validated, discards in Hconclude, Hfs.
  rewrite Hval, Hbk in Hconclude.
  destruct Hconclude as (r & Hrun & Hch & _ & _ & _ & Hrbf);
    [intros _; by exists out, err|exact Hfs|].
  exists r. eexists. split.
  { rewrite main_split, Hpre. unfold finish. unfold_monad. rewrite Hrec.
    exact Hrun. }
  split; [done|]. split; [done|].
  rewrite Hrbf. subst backup_file. cbn.
  unfold accepting, discards. cbn. rewrite Hval, Hbk, Hv. cbn.
  rewrite Hv in Hfs. cbn in Hfs.
  destruct (backup ps) eqn:Ebk; cbn in *.
  - split; [done|]. split.
    + intros e He. rewrite Hlog2 in He.
      apply elem_of_app in He as [He|He]; intros ->.
      * repeat (apply elem_of_cons in He as [He|He];
                [first [discriminate He | subst change; by destruct Hcommit]|]).
        by apply elem_of_nil in He.
      * repeat (apply elem_of_cons in He as [He|He]; [discriminate He|]).
        by apply elem_of_nil in He.
    + by apply (set_fs_attributes_keeps_files _ _ _ _ _ b) in Hfs.
  - split; [done|]. split.
    + rewrite !elem_of_app. right. by repeat constructor.
    + apply (set_fs_attributes_keeps_files _ _ _ _ _ b) in Hfs.
      by rewrite Hfs, cleanup_removes.
Qed.

End Backup.

(** *** The search for the Nagios executable *)

Lemma split_nonempty sep s : split sep s ≠ [].
Proof.
  destruct s as [|c s]; cbn; [done|].
  destruct (decide (c = sep)); [done|]. by destruct (split sep s).
Qed.

(** Splitting loses nothing: joined again with the separator the pieces
    give the string back, and no piece holds the separator. *)
Theorem split_join sep s :
  join_with sep (split sep s) = s
  ∧ Forall (λ piece, ¬ occurs sep piece) (split sep s).
Proof.
  induction s as [|c s [IHj IHo]]; cbn.
  { split; [done|]. constructor; [tauto|constructor]. }
  destruct (decide (c = sep)) as [->|Hne].
  - split.
    + pose proof (split_nonempty sep s).
      cbn. destruct (split sep s) as [|p rest]; [done|].
      cbn in *. by rewrite IHj.
    + constructor; [cbn; tauto|done].
  - pose proof (split_nonempty sep s).
    destruct (split sep s) as [|p rest]; [done|]. split.
    + cbn in *. destruct rest as [|q rest]; cbn in *; by rewrite <- IHj.
    + apply Forall_cons in IHo as [Hp Hrest].
      constructor; [|done]. cbn. intros [?|?]; [done|by apply Hp].
Qed.

Lemma get_nagios_bin_loop_first dirs program (s : module_state) :
  ∃ r, get_nagios_bin_loop dirs program s = (Returned r, s)
       ∧ match r with
         | Some p =>
             ∃ before d after,
               dirs = (before ++ d :: after)%list
               ∧ p = os_path_join d program
               ∧ executable (world s) p = true
               ∧ Forall (λ d', executable (world s) (os_path_join d' program)
                               = false) before
         | None =>
             Forall (λ d, executable (world s) (os_path_join d program) = false)
               dirs
         end.
Proof.
  induction dirs as [|d dirs (r & Hrun & Hr)]; cbn; unfold_monad.
  { exists None. split; [done|constructor]. }
  unfold is_exe. unfold_monad. fold (executable (world s) (os_path_join d program)).
  destruct (executable (world s) (os_path_join d program)) eqn:Ed.
  - exists (Some (os_path_join d program)). split; [done|].
    exists [], d, dirs. repeat split; [done|constructor].
  - exists r. split; [done|]. destruct r as [p|].
    + destruct Hr as (before & d' & after & -> & -> & Hexe & Hbefore).
      exists (d :: before), d', after. repeat split; [done|by constructor].
    + by constructor.
Qed.

(** [get_nagios_bin] answers with the first entry of [PATH], in order,
    under which the program is an executable file, and with [None] when
    there is none; it changes nothing. *)
Theorem get_nagios_bin_first (s : module_state) PATH program :
  environ_PATH (world s) = Some PATH →
  ∃ r, get_nagios_bin program s = (Returned r, s)
       ∧ match r with
         | Some p =>
             ∃ before d after,
               split os_pathsep PATH = (before ++ d :: after)%list
               ∧ p = os_path_join d program
               ∧ executable (world s) p = true
               ∧ Forall (λ d', executable (world s) (os_path_join d' program)
                               = false) before
         | None =>
             Forall (λ d, executable (world s) (os_path_join d program) = false)
               (split os_pathsep PATH)
         end.
Proof.
  intros HP. unfold get_nagios_bin. unfold_monad. rewrite HP.
  apply get_nagios_bin_loop_first.
Qed.

(** *** The environment checks *)

(** What holds once the environment checks have passed: the library is
    there; [Model.cfg_file] was assigned if [nagios_cfg] was given, which
    then names an existing file, and [nagios_cfg] is otherwise filled in
    from the library; with validation asked for, [nagios_bin] names an
    executable file, the one given or the first one found on [PATH], and
    without it [nagios_bin] is as given. *)
Theorem check_environment_returned ps w s1 :
  check_environment (start ps w) = (Returned (), s1) →
  HAS_LIB = true
  ∧ world s1 = configured ps w
  ∧ log s1 = []
  ∧ nagios_cfg (params s1)
    = match nagios_cfg ps with
      | Some cfg => Some cfg
      | None => config_cfg_file w
      end
  ∧ (∀ cfg, nagios_cfg ps = Some cfg → os_path_isfile w cfg = true)
  ∧ (if validate ps
     then ∃ b, nagios_bin (params s1) = Some b
               ∧ executable (world s1) b = true
               ∧ (nagios_bin ps = None ∨ nagios_bin ps = Some b)
     else nagios_bin (params s1) = nagios_bin ps).
Proof.
  unfold check_environment, get_nagios_bin, configured. unfold_monad.
  destruct HAS_LIB; cbn; [|discriminate].
  destruct (nagios_cfg ps) as [cfg|] eqn:Ecfg; cbn.
  - destruct (os_path_isfile w cfg) eqn:Efile; cbn; [|discriminate].
    destruct (validate ps) eqn:Ev; cbn.
    2:{ intros [= <-]. cbn. repeat split; [done|]. by intros ? [= <-]. }
    destruct (nagios_bin ps) as [bin|] eqn:Ebin; cbn.
    + unfold is_exe. unfold_monad. cbn.
      fold (executable (set_Model_cfg_file cfg w) bin).
      destruct (executable _ bin) eqn:Eexe; intros [= <-]. cbn.
      repeat split; [done|by intros ? [= <-]|].
      exists bin. split; [done|split; [done|by right]].
    + destruct (environ_PATH _) as [PATH|]; cbn; [|discriminate].
      match goal with
      | |- context [get_nagios_bin_loop ?d ?p ?s] =>
          destruct (get_nagios_bin_loop_first d p s) as (r & -> & Hr)
      end.
      cbn. destruct r as [b|]; cbn; [|discriminate].
      intros [= <-]. cbn. repeat split; [done|by intros ? [= <-]|].
      destruct Hr as (_ & _ & _ & _ & _ & Hexe & _). cbn in Hexe.
      exists b. split; [done|split; [done|by left]].
  - destruct (validate ps) eqn:Ev; cbn.
    2:{ intros [= <-]. cbn. by repeat split. }
    destruct (nagios_bin ps) as [bin|] eqn:Ebin; cbn.
    + unfold is_exe. unfold_monad. cbn. fold (executable w bin).
      destruct (executable _ bin) eqn:Eexe; intros [= <-]. cbn.
      repeat split; [done|]. exists bin. split; [done|split; [done|by right]].
    + destruct (environ_PATH _) as [PATH|]; cbn; [|discriminate].
      match goal with
      | |- context [get_nagios_bin_loop ?d ?p ?s] =>
          destruct (get_nagios_bin_loop_first d p s) as (r & -> & Hr)
      end.
      cbn. destruct r as [b|]; cbn; [|discriminate].
      intros [= <-]. cbn. repeat split; [done|].
      destruct Hr as (_ & _ & _ & _ & _ & Hexe & _). cbn in Hexe.
      exists b. split; [done|split; [done|by left]].
Qed.

(** The state in which [main] looks for the validator. *)
Lemma check_environment_to_validator ps w :
  HAS_LIB = true →
  (∀ cfg, nagios_cfg ps = Some cfg → os_path_isfile w cfg = true) →
  validate ps = true →
  nagios_bin ps = None →
  ∃ ps', check_environment (start ps w)
         = (found ← get_nagios_bin "nagios";
            set_param (set_nagios_bin found);;
            bin ← param nagios_bin;
            if decide (bin = None) then fail_json NagiosBinNotFound else mret ())
             {| params := ps'; world := configured ps w; log := [] |}.
Proof.
  intros Hlib Hcfg Hv Hbin. unfold check_environment, configured. unfold_monad.
  rewrite Hlib. cbn. destruct (nagios_cfg ps) as [cfg|] eqn:Ecfg; cbn.
  - rewrite (Hcfg cfg eq_refl). cbn. rewrite Hv. cbn. rewrite Hbin. by eexists.
  - rewrite Hv. cbn. rewrite Hbin. by eexists.
Qed.

(** With validation asked for, no [nagios_bin] given and [PATH] unset,
    the lookup of [os.environ['PATH']] raises: the invocation ends in an
    uncaught [KeyError], before any effect. *)
Theorem validator_search_without_PATH ps w :
  HAS_LIB = true →
  (∀ cfg, nagios_cfg ps = Some cfg → os_path_isfile w cfg = true) →
  validate ps = true →
  nagios_bin ps = None →
  environ_PATH (configured ps w) = None →
  ∃ s', main (start ps w) = (Raised (KeyError "PATH"), s') ∧ log s' = [].
Proof.
  intros Hlib Hcfg Hv Hbin HP.
  destruct (check_environment_to_validator ps w Hlib Hcfg Hv Hbin) as [ps' Henv].
  eexists. rewrite main_split. unfold preflight. unfold_monad.
  rewrite Henv. unfold get_nagios_bin. unfold_monad. cbn. rewrite HP. done.
Qed.

(** With validation asked for, no [nagios_bin] given and no entry of
    [PATH] under which [nagios] is an executable file, the invocation
    fails with the validator-not-found error, before any effect. *)
Theorem validator_not_on_PATH ps w PATH :
  HAS_LIB = true →
  (∀ cfg, nagios_cfg ps = Some cfg → os_path_isfile w cfg = true) →
  validate ps = true →
  nagios_bin ps = None →
  environ_PATH (configured ps w) = Some PATH →
  Forall (λ d, executable (configured ps w) (os_path_join d "nagios") = false)
    (split os_pathsep PATH) →
  ∃ s', main (start ps w) = (Failed NagiosBinNotFound, s')
        ∧ kind_of NagiosBinNotFound = validator_not_found
        ∧ log s' = [].
Proof.
  intros Hlib Hcfg Hv Hbin HP Hnone.
  destruct (check_environment_to_validator ps w Hlib Hcfg Hv Hbin) as [ps' Henv].
  eexists. rewrite main_split. unfold preflight. unfold_monad.
  rewrite Henv.
  unfold get_nagios_bin. unfold_monad. cbn. rewrite HP.
  match goal with
  | |- context [get_nagios_bin_loop ?d ?p ?s] =>
      destruct (get_nagios_bin_loop_first d p s) as (r & -> & Hr)
  end.
  destruct r as [b|]; cbn.
  - destruct Hr as (before & d & after & Hsplit & -> & Hexe & _). cbn in *.
    rewrite Hsplit in Hnone. apply Forall_app in Hnone as [_ Hnone].
    apply Forall_cons in Hnone as [Hd _]. congruence.
  - done.
Qed.

(** *** What an invocation may do *)

Lemma get_nagios_object_log s r s' :
  get_nagios_object s = (r, s') →
  params s' = params s ∧ world s' = world s
  ∧ (log s' = log s
     ∨ ∃ ids, log s' = (log s ++ [EFilter (type (params s)) ids])%list).
Proof.
  unfold get_nagios_object. unfold_monad.
  destruct (nagios_object_ids s) as [r0 s0] eqn:E.
  apply nagios_object_ids_state in E as ->.
  destruct r0 as [ids| |]; [|intros [= <- <-]; by repeat split; left..].
  unfold lookup_nagios_object. unfold_monad. unfold_calls.
  destruct (objects_filter _ _ _) as [ex|l]; cbn.
  - intros [= <- <-]. cbn. repeat split. right. by exists ids.
  - destruct l as [|o l]; [|destruct (decide _)]; intros [= <- <-]; cbn;
      repeat split; right; by exists ids.
Qed.

(** The reconciliation never assigns to the parameters; its effects are
    the lookup, a backup when one is due, and a save or a delete; and a
    failure other than of the save or inside [backup_local] comes after
    nothing but the lookup, in the world as it was. *)
Lemma reconcile_effects s r s' :
  reconcile s = (r, s') →
  params s' = params s
  ∧ ∃ es, log s' = (log s ++ es)%list
          ∧ Forall (reconciling (params s)) es
          ∧ (∀ f, r = Failed f → (∀ ex, f ≠ WriteFailed ex) →
                  (∀ message, f ≠ FrameworkFailed message) →
                  no_mutation es ∧ world s' = world s).
Proof.
  unfold reconcile. unfold_monad.
  assert (Hfilter : ∀ (s1 : module_state),
            log s1 = log s
            ∨ (∃ ids, log s1 = (log s ++ [EFilter (type (params s)) ids])%list) →
            ∃ es0, log s1 = (log s ++ es0)%list
                   ∧ Forall (reconciling (params s)) es0 ∧ no_mutation es0).
  { intros s1 [->|[ids ->]].
    - exists []. rewrite app_nil_r. by repeat split; constructor.
    - eexists. split; [done|]. by split; repeat constructor. }
  assert (Hend : ∀ (s1 : module_state) es0 (r0 : outcome reconciled) w' es1,
            params s1 = params s → world s1 = world s →
            log s1 = (log s ++ es0)%list →
            Forall (reconciling (params s)) es0 → no_mutation es0 →
            Forall (reconciling (params s)) es1 →
            (∀ f, r0 = Failed f →
                  (∃ ex, f = WriteFailed ex)
                  ∨ (∃ message, f = FrameworkFailed message)
                  ∨ (es1 = [] ∧ w' = world s)) →
            (r0, {| params := params s1; world := w';
                    log := (log s1 ++ es1)%list |}) = (r, s') →
            params s' = params s
            ∧ ∃ es, log s' = (log s ++ es)%list
                    ∧ Forall (reconciling (params s)) es
                    ∧ (∀ f, r = Failed f → (∀ ex, f ≠ WriteFailed ex) →
                            (∀ message, f ≠ FrameworkFailed message) →
                            no_mutation es ∧ world s' = world s)).
  { intros s1 es0 r0 w' es1 Hps Hw Hlog Hes0 Hnm Hes1 Hf [= <- <-]. cbn.
    split; [done|]. exists (es0 ++ es1)%list. rewrite Hlog, <- app_assoc.
    split; [done|]. split; [by apply Forall_app|].
    intros f -> Hne1 Hne2.
    destruct (Hf f eq_refl) as [[ex ->]|[[message ->]|[-> ->]]];
      [by destruct (Hne1 ex)|by destruct (Hne2 message)|].
    by rewrite app_nil_r. }
  assert (Hsame : ∀ (s1 : module_state) es0 (r0 : outcome reconciled),
            params s1 = params s → world s1 = world s →
            log s1 = (log s ++ es0)%list →
            Forall (reconciling (params s)) es0 → no_mutation es0 →
            (r0, s1) = (r, s') →
            params s' = params s
            ∧ ∃ es, log s' = (log s ++ es)%list
                    ∧ Forall (reconciling (params s)) es
                    ∧ (∀ f, r = Failed f → (∀ ex, f ≠ WriteFailed ex) →
                            (∀ message, f ≠ FrameworkFailed message) →
                            no_mutation es ∧ world s' = world s)).
  { intros s1 es0 r0 Hps Hw Hlog Hes0 Hnm [= <- <-].
    split; [done|]. exists es0. by repeat split. }
  destruct (decide (state (params s) = present)) as [Hst|Hst].
  - unfold create_nagios_object. unfold_monad.
    destruct (get_nagios_object s) as [[found|f0|e0] s1] eqn:Hget;
      apply get_nagios_object_log in Hget as (Hps & Hw & Hlog);
      apply Hfilter in Hlog as (es0 & Hlog & Hes0 & Hnm);
      [|by apply (Hsame s1 es0)..].
    unfold_calls.
    destruct found as [o|]; cbn.
    + match goal with |- context [is_dirty ?x] => destruct (is_dirty x) end; cbn;
        [|by apply (Hsame s1 es0)].
      destruct (backup _ || validate _) eqn:Edue; cbn.
      * destruct (backup_local _ _) as [[w1 b]| |]; cbn.
        -- destruct (obj_save _ _) as [ex|[w2 o2]]; cbn;
             rewrite <- app_assoc;
             apply (Hend s1 es0); try done; try (by repeat constructor).
           intros f [= <-]. left. by eexists.
        -- apply (Hend s1 es0); try done; by repeat constructor.
        -- apply (Hend s1 es0); try done; try (by repeat constructor).
           intros f [= <-]. right. left. by eexists.
      * destruct (obj_save _ _) as [ex|[w2 o2]]; cbn;
          apply (Hend s1 es0); try done; try (by repeat constructor).
        intros f [= <-]. left. by eexists.
    + destruct (decide _); cbn; [by apply (Hsame s1 es0)|].
      destruct (backup _ || validate _) eqn:Edue; cbn.
      * destruct (backup_local _ _) as [[w1 b]| |]; cbn.
        -- destruct (obj_save _ _) as [ex|[w2 o2]]; cbn;
             rewrite <- app_assoc;
             apply (Hend s1 es0); try done; try (by repeat constructor).
           intros f [= <-]. left. by eexists.
        -- apply (Hend s1 es0); try done; by repeat constructor.
        -- apply (Hend s1 es0); try done; try (by repeat constructor).
           intros f [= <-]. right. left. by eexists.
      * destruct (obj_save _ _) as [ex|[w2 o2]]; cbn;
          apply (Hend s1 es0); try done; try (by repeat constructor).
        intros f [= <-]. left. by eexists.
  - unfold delete_nagios_object. unfold_monad.
    destruct (get_nagios_object s) as [[found|f0|e0] s1] eqn:Hget;
      apply get_nagios_object_log in Hget as (Hps & Hw & Hlog);
      apply Hfilter in Hlog as (es0 & Hlog & Hes0 & Hnm);
      [|by apply (Hsame s1 es0)..].
    destruct found as [o|]; cbn; [|by apply (Hsame s1 es0)].
    unfold_calls. rewrite Hps.
    destruct (backup _ || validate _) eqn:Edue; cbn.
    + destruct (backup_local _ _) as [[w1 b]| |]; cbn.
      * destruct (obj_delete _ _ _ _) as [ex|[w2 o2]]; cbn;
          rewrite <- app_assoc;
          apply (Hend s1 es0); try done; by repeat constructor.
      * apply (Hend s1 es0); try done; by repeat constructor.
      * apply (Hend s1 es0); try done; try (by repeat constructor).
        intros f [= <-]. right. left. by eexists.
    + destruct (obj_delete _ _ _ _) as [ex|[w2 o2]]; cbn;
        apply (Hend s1 es0); try done; by repeat constructor.
Qed.

(** After the reconciliation [main] assigns [path] and nothing else;
    its effects are those of [concluding]; and it fails only for a
    rejected validation or inside [set_fs_attributes_if_different]. *)
Lemma conclude_effects changed file attrs before after backup_file s r s' :
  conclude (changed, file, attrs, before, after, backup_file) s = (r, s') →
  params s' = set_path file (params s)
  ∧ (∃ es, log s' = (log s ++ es)%list
           ∧ Forall (concluding changed (params s)) es)
  ∧ (∀ f, r = Failed f →
          (∃ message, f = ValidationFailed message)
          ∨ (∃ message, f = FrameworkFailed message))
  ∧ (∀ res, r = Returned res →
       res_path res = file ∧ res_nagios_object res = attrs
       ∧ (changed = true → res_changed res = true)
       ∧ res_diff res
         = (if _diff (params s)
            then Some {| before_header := file; before := before;
                         after_header := file; after := after |}
            else None)
       ∧ res_backup_file res
         = (if backup (params s) then Some backup_file else None)).
Proof.
  unfold conclude, validate_nagios_configuration. unfold_monad. unfold_calls.
  cbn. destruct (changed && validate (params s)) eqn:Ecv; cbn.
  - destruct (verify_config _ _ _) as [[[] out] err]; cbn.
    + destruct (negb _ && _); cbn;
        destruct (set_fs_attributes_if_different _ _ _) as [[w3 c]| |]; cbn;
        intros [= <- <-]; cbn; (split; [done|]);
        (split; [eexists; rewrite <- !app_assoc; split; [done|];
                 by repeat constructor|]);
        (split; [first [by intros ? [=]
                       | intros ? [= <-]; right; by eexists]|]);
        first [by intros ? [=] | intros ? [= <-]]; cbn; repeat split; try done;
        intros ->; by destruct c.
    + destruct (decide _); cbn; intros [= <- <-]; cbn; (split; [done|]);
        (split; [eexists; rewrite <- !app_assoc; split; [done|];
                 by repeat constructor|]);
        (split; [intros ? [= <-]; left; by eexists|]); by intros ? [=].
  - destruct (set_fs_attributes_if_different _ _ _) as [[w3 c]| |]; cbn;
      intros [= <- <-]; cbn; (split; [done|]);
      (split; [eexists; split; [done|]; by repeat constructor|]);
      (split; [first [by intros ? [=]
                     | intros ? [= <-]; right; by eexists]|]);
      first [by intros ? [=] | intros ? [= <-]]; cbn; repeat split; try done;
      intros ->; by destruct c.
Qed.

(** A failure that the module itself reports through [fail_json], other
    than that of a failed save or of a rejected validation, comes before
    any mutation: the log holds at most the lookup, and the world is the
    one the invocation started in, up to the assignment of
    [Model.cfg_file].  (A [fail_json] inside a helper of AnsibleModule,
    and an exception, can end the run later.) *)
Theorem early_failure_without_mutation ps w f s' :
  main (start ps w) = (Failed f, s') →
  (∀ ex, f ≠ WriteFailed ex) →
  (∀ message, f ≠ ValidationFailed message) →
  (∀ message, f ≠ FrameworkFailed message) →
  no_mutation (log s')
  ∧ (world s' = w ∨ ∃ cfg, world s' = set_Model_cfg_file cfg w).
Proof.
  intros Hmain Hw Hv Hm. rewrite main_split in Hmain.
  destruct (preflight (start ps w)) as [[[]|f0|e0] sc] eqn:Hpre;
    [|injection Hmain as -> ->|discriminate].
  2:{ destruct (preflight_frame _ _ _ Hpre) as [-> _].
      split; [constructor|]. by apply preflight_world in Hpre. }
  destruct (preflight_frame _ _ _ Hpre) as [Hlog _]. cbn in Hlog.
  apply preflight_world in Hpre. cbn in Hpre.
  unfold finish in Hmain. unfold_monad.
  destruct (reconcile sc) as [[rec|f0|e0] s2] eqn:Hrec; [| |discriminate].
  - destruct rec as [[[[[changed file] attrs] before] after] backup_file].
    apply conclude_effects in Hmain as (_ & _ & Hf & _).
    destruct (Hf f eq_refl) as [[message ->]|[message ->]];
      [by destruct (Hv message)|by destruct (Hm message)].
  - injection Hmain as -> ->.
    apply reconcile_effects in Hrec as (_ & es & Hes & _ & Hfail).
    destruct (Hfail f eq_refl Hw Hm) as [Hnm ->].
    rewrite Hes, Hlog. by split.
Qed.

(** An invocation that was not asked to validate never runs the
    validator, never cleans up or moves a file, and takes a backup only
    with the backup flag, however it ends. *)
Theorem unvalidated_effects ps w r s' :
  validate ps = false →
  main (start ps w) = (r, s') →
  Forall (unvalidated ps) (log s').
Proof.
  intros Hv Hmain. rewrite main_split in Hmain.
  destruct (preflight (start ps w)) as [pre sc] eqn:Hpre.
  destruct (preflight_frame _ _ _ Hpre)
    as [Hlog (_ & _ & _ & _ & _ & Hval & Hbk & _)].
  cbn in Hlog, Hval, Hbk.
  destruct pre as [[]|f0|e0]; [|injection Hmain as <- <-; rewrite Hlog;
                                  constructor..].
  unfold finish in Hmain. unfold_monad.
  destruct (reconcile sc) as [rec s2] eqn:Hrec.
  apply reconcile_effects in Hrec as (Hps & es & Hes & Hall & _).
  assert (Hes' : Forall (unvalidated ps) (log s2)).
  { rewrite Hes, Hlog. cbn. eapply Forall_impl; [exact Hall|].
    intros [] He; cbn in *; try done.
    rewrite Hval, Hv, orb_false_r, Hbk in He. done. }
  destruct rec as [rec|f0|e0]; [|by injection Hmain as <- <-..].
  destruct rec as [[[[[changed file] attrs] before] after] backup_file].
  apply conclude_effects in Hmain as (_ & (es2 & -> & Hall2) & _).
  apply Forall_app. split; [done|].
  eapply Forall_impl; [exact Hall2|].
  intros [] He; cbn in *; try done;
    rewrite Hps, Hval, Hv, andb_false_r in He; done.
Qed.

(** What the environment checks leave in [nagios_cfg] and [nagios_bin]. *)
Lemma check_environment_params ps w s1 :
  check_environment (start ps w) = (Returned (), s1) →
  nagios_cfg (params s1)
  = match nagios_cfg ps with
    | Some cfg => Some cfg
    | None => config_cfg_file w
    end
  ∧ (if validate ps
     then ∃ b, nagios_bin (params s1) = Some b
               ∧ (nagios_bin ps = None ∨ nagios_bin ps = Some b)
     else nagios_bin (params s1) = nagios_bin ps).
Proof.
  unfold check_environment, get_nagios_bin. unfold_monad.
  destruct HAS_LIB; cbn; [|discriminate].
  destruct (nagios_cfg ps) as [cfg|] eqn:Ecfg; cbn.
  - destruct (os_path_isfile w cfg) eqn:Efile; cbn; [|discriminate].
    destruct (validate ps) eqn:Ev; cbn.
    2:{ intros [= <-]. by cbn. }
    destruct (nagios_bin ps) as [bin|] eqn:Ebin; cbn.
    + unfold is_exe. unfold_monad. cbn.
      destruct (_ && _); intros [= <-]. cbn.
      split; [done|]. exists bin. split; [done|by right].
    + destruct (environ_PATH _) as [PATH|]; cbn; [|discriminate].
      match goal with
      | |- context [get_nagios_bin_loop ?d ?p ?s] =>
          destruct (get_nagios_bin_loop d p s) as [r0 s0] eqn:E
      end.
      apply get_nagios_bin_loop_state in E as ->.
      destruct r0 as [[b|]| |]; cbn; try discriminate.
      intros [= <-]. cbn. split; [done|]. exists b. split; [done|by left].
  - destruct (validate ps) eqn:Ev; cbn.
    2:{ intros [= <-]. by cbn. }
    destruct (nagios_bin ps) as [bin|] eqn:Ebin; cbn.
    + unfold is_exe. unfold_monad. cbn.
      destruct (_ && _); intros [= <-]. cbn.
      split; [done|]. exists bin. split; [done|by right].
    + destruct (environ_PATH _) as [PATH|]; cbn; [|discriminate].
      match goal with
      | |- context [get_nagios_bin_loop ?d ?p ?s] =>
          destruct (get_nagios_bin_loop d p s) as [r0 s0] eqn:E
      end.
      apply get_nagios_bin_loop_state in E as ->.
      destruct r0 as [[b|]| |]; cbn; try discriminate.
      intros [= <-]. cbn. split; [done|]. exists b. split; [done|by left].
Qed.

(** What a normal return of [main] leaves in [module.params] and hands
    to [exit_json].  [path] holds the reported path; [nagios_cfg] is the
    one given, or else the library's; [nagios_bin] is, with validation
    asked for, the one given or one that was filled in, and as given
    otherwise; every other parameter is as declared.  The results hold
    the [diff] entry exactly with the diff flag, headed on both sides by
    the reported path, and the [backup_file] entry exactly with the
    backup flag. *)
Theorem main_results ps w res s' :
  main (start ps w) = (Returned res, s') →
  path (params s') = res_path res
  ∧ nagios_cfg (params s')
    = match nagios_cfg ps with
      | Some cfg => Some cfg
      | None => config_cfg_file w
      end
  ∧ (if validate ps
     then ∃ b, nagios_bin (params s') = Some b
               ∧ (nagios_bin ps = None ∨ nagios_bin ps = Some b)
     else nagios_bin (params s') = nagios_bin ps)
  ∧ same_declaration (set_path (path ps) (params s')) ps
  ∧ match res_diff res with
    | Some d => _diff ps = true
                ∧ before_header d = res_path res
                ∧ after_header d = res_path res
    | None => _diff ps = false
    end
  ∧ match res_backup_file res with
    | Some _ => backup ps = true
    | None => backup ps = false
    end.
Proof.
  intros Hmain. rewrite main_split in Hmain.
  destruct (preflight (start ps w)) as [[[]|f0|e0] sc] eqn:Hpre;
    [|discriminate..].
  destruct (preflight_frame _ _ _ Hpre) as [_ Hsame]. cbn in Hsame.
  assert (Hfilled : check_environment (start ps w) = (Returned (), sc)).
  { unfold preflight in Hpre. unfold_monad.
    destruct (check_environment (start ps w)) as [[[]|f0|e0] s0];
      [|discriminate..].
    destruct (check_items _ s0) as [r1 s1] eqn:E1.
    apply check_items_state in E1 as ->. by injection Hpre as -> ->. }
  apply check_environment_params in Hfilled as [Hcfg Hbin].
  unfold finish in Hmain. unfold_monad.
  destruct (reconcile sc) as [[rec|f0|e0] s2] eqn:Hrec; [|discriminate..].
  apply reconcile_effects in Hrec as (Hps & _).
  destruct rec as [[[[[changed file] attrs] before] after] backup_file].
  apply conclude_effects in Hmain as (Hps' & _ & _ & Hres).
  destruct (Hres res eq_refl) as (Hpath & _ & _ & Hdiff & Hbf).
  rewrite Hps in *. rewrite Hps'. cbn.
  destruct Hsame as (? & ? & ? & ? & ? & ? & Hbk & Hd & ?).
  split; [done|]. split; [done|]. split; [done|]. split; [by repeat split|].
  rewrite Hdiff, Hbf, Hd, Hbk, Hpath.
  by split; [destruct (_diff ps)|destruct (backup ps)].
Qed.

(** A reconciliation that reports no change is followed by no
    validation, even when validation was asked for: the only further
    effect is the call that sets the file attributes, and the invocation
    ends as that call does.  When it answers, the invocation returns and
    the change it reports is the one the call answered; when it raises,
    as it does when the reconciliation found no object to delete and
    handed no path on, the exception escapes; when it calls [fail_json],
    the invocation fails with its message. *)
Theorem unchanged_run ps w sc file attrs before after backup_file s2 :
  preflight (start ps w) = (Returned (), sc) →
  reconcile sc
  = (Returned (false, file, attrs, before, after, backup_file), s2) →
  let file_args := load_file_common_arguments (set_path file (params sc)) in
  ∃ r s3,
    main (start ps w) = (r, s3)
    ∧ log s3 = (log s2 ++ [ESetFsAttributes file_args false])%list
    ∧ match set_fs_attributes_if_different (world s2) file_args false with
      | Done (w3, c) =>
          world s3 = w3
          ∧ ∃ res, r = Returned res ∧ res_changed res = c ∧ res_path res = file
      | Throws e => r = Raised e ∧ world s3 = world s2
      | Exits message =>
          r = Failed (FrameworkFailed message) ∧ world s3 = world s2
      end.
Proof.
  intros Hpre Hrec file_args.
  pose proof (reconcile_effects _ _ _ Hrec) as (Hps & _).
  pose proof (conclude_unchanged file attrs before after backup_file s2)
    as Hconclude.
  cbn zeta in Hconclude. subst file_args. rewrite <- Hps.
  assert (Hmain : main (start ps w)
                  = conclude (false, file, attrs, before, after, backup_file) s2).
  { rewrite main_split, Hpre. unfold finish. unfold_monad. by rewrite Hrec. }
  rewrite Hmain.
  destruct (set_fs_attributes_if_different _ _ _) as [[w3 c]| |].
  - destruct Hconclude as (res & -> & Hch & Hpath & _).
    eexists _, _. split; [done|]. split; [done|]. split; [done|].
    by exists res.
  - rewrite Hconclude. by eexists _, _.
  - rewrite Hconclude. by eexists _, _.
Qed.

(** *** When the library raises *)

(** An exception of the lookup becomes the availability failure of the
    invocation, on either path; the lookup is its only effect. *)
Theorem lookup_failure ps w sc ids ex :
  preflight (start ps w) = (Returned (), sc) →
  (nagios_object_ids (start ps w)).1 = Returned ids →
  objects_filter (world sc) (type ps) ids = inl ex →
  ∃ s', main (start ps w) = (Failed (AvailabilityCheckFailed ex), s')
        ∧ kind_of (AvailabilityCheckFailed ex) = persistence_failure
        ∧ log s' = [EFilter (type ps) ids]
        ∧ world s' = world sc.
Proof.
  intros Hpre Hids Hfilter.
  destruct (preflight_frame _ _ _ Hpre) as [Hlog (_ & Ht & Hp & _)].
  cbn in Hlog, Ht, Hp.
  assert (Hids1 : nagios_object_ids sc = (Returned ids, sc)).
  { destruct (nagios_object_ids sc) as [r s0] eqn:E.
    pose proof (nagios_object_ids_state _ _ _ E) as ->.
    rewrite <- Hids, <- (nagios_object_ids_declaration sc (start ps w)), E; done. }
  assert (Hget : get_nagios_object sc
                 = (Failed (AvailabilityCheckFailed ex),
                    logged sc [EFilter (type ps) ids])).
  { unfold get_nagios_object, lookup_nagios_object. unfold_monad. unfold_calls.
    rewrite Hids1. cbn. rewrite Ht, Hfilter. done. }
  exists (logged sc [EFilter (type ps) ids]).
  split; [|cbn; by rewrite Hlog].
  eapply main_fails_in_reconcile; [done|].
  unfold reconcile, create_nagios_object, delete_nagios_object. unfold_monad.
  destruct (decide _); by rewrite Hget.
Qed.

(** A type that is not a template, a service or a dependency and has no
    entry in the library's table of keys: the lookup of the key raises,
    and the invocation ends in an uncaught [KeyError] before any
    effect. *)
Theorem type_without_key ps w sc :
  preflight (start ps w) = (Returned (), sc) →
  py_eq_zero (dict_get_default (parameters ps) "register" (VInt 1)) = false →
  type ps ∉ [Service; Servicedependency; Hostdependency] →
  object_type_keys (type ps) = None →
  main (start ps w) = (Raised (KeyError (type_name (type ps))), sc)
  ∧ log sc = [].
Proof.
  intros Hpre Hreg Ht Hkey.
  destruct (preflight_frame _ _ _ Hpre) as [Hlog (_ & Ht' & Hp & Hs & _)].
  cbn in Hlog, Ht', Hp, Hs. split; [|done].
  assert (Hids : nagios_object_ids sc
                 = (Raised (KeyError (type_name (type ps))), sc)).
  { unfold nagios_object_ids. unfold_monad. rewrite Hp, Hreg, Ht'.
    destruct (type ps); cbn; rewrite ?Hkey; try done;
      exfalso; apply Ht; set_solver. }
  rewrite main_split, Hpre. unfold finish, reconcile, create_nagios_object,
    delete_nagios_object, get_nagios_object.
  unfold_monad. destruct (decide _); by rewrite Hids.
Qed.

(** A save that raises becomes the write failure of the invocation.  The
    validator is not run, and a backup taken for the save is left where
    it is: the log ends with the save, made in the world [w1] the backup
    left. *)
Theorem save_failure ps w sc s1 found o' f w1 ex :
  state ps = present →
  preflight (start ps w) = (Returned (), sc) →
  get_nagios_object sc = (Returned found, s1) →
  to_save ps found o' f →
  backed_up ps (world sc) f w1 →
  obj_save w1 o' = inl ex →
  ∃ s', main (start ps w) = (Failed (WriteFailed ex), s')
        ∧ kind_of (WriteFailed ex) = persistence_failure
        ∧ log s' = (log s1 ++ committing ps f (ESave o'))%list
        ∧ world s' = w1.
Proof.
  intros Hst Hpre Hget Hto Hb Hsave.
  destruct (preflight_frame _ _ _ Hpre)
    as [_ (Hpath & Ht & Hp & Hs & Hu & Hval & Hbk & _)].
  cbn in Hpath, Ht, Hp, Hs, Hu, Hval, Hbk.
  destruct (get_nagios_object_frame _ _ _ Hget) as (Hps & Hw & _).
  assert (Hrec : ∃ s', reconcile sc = (Failed (WriteFailed ex), s')
                       ∧ log s' = (log s1 ++ committing ps f (ESave o'))%list
                       ∧ world s' = w1).
  { unfold reconcile. unfold_monad. rewrite Hs, Hst, decide_True; [|done].
    unfold create_nagios_object. unfold_monad. unfold_calls.
    rewrite Hget, Hbk, Hval, Hu, Hp, Ht, Hpath.
    unfold backed_up, committing in *. unfold to_save in Hto.
    destruct found as [o|].
    - destruct Hto as (-> & -> & Hd). cbn. rewrite Hd. cbn.
      destruct (backup ps || validate ps); cbn.
      + destruct Hb as [b Hb]. rewrite Hw, Hb. cbn.
        rewrite Hsave. eexists. split; [reflexivity|]. cbn.
        by rewrite <- app_assoc.
      + subst w1. rewrite Hw, Hsave. eexists. split; [reflexivity|]. done.
    - destruct Hto as (Hfn & -> & ->). rewrite decide_False; cbn.
      2:{ rewrite Hfn. by intros [? ?]. }
      destruct (backup ps || validate ps); cbn.
      + destruct Hb as [b Hb]. rewrite Hw, Hb. cbn.
        rewrite Hsave. eexists. split; [reflexivity|]. cbn.
        by rewrite <- app_assoc.
      + subst w1. rewrite Hw, Hsave. eexists. split; [reflexivity|]. done. }
  destruct Hrec as (s' & Hrec & Hlog & Hworld).
  exists s'. split; [|done].
  by eapply main_fails_in_reconcile.
Qed.

(** A delete that raises is not caught: the invocation ends in the
    exception itself, not in a failure with a message, after the backup
    if one was due, in the world [w1] the backup left. *)
Theorem delete_failure ps w sc s1 o w1 ex :
  state ps = absent →
  preflight (start ps w) = (Returned (), sc) →
  get_nagios_object sc = (Returned (Some o), s1) →
  backed_up ps (world sc) (get_filename o) w1 →
  obj_delete w1 o false true = inl ex →
  ∃ s', main (start ps w) = (Raised ex, s')
        ∧ log s'
          = (log s1 ++ committing ps (get_filename o) (EDelete o false true))%list
        ∧ world s' = w1.
Proof.
  intros Hst Hpre Hget Hb Hdel.
  destruct (preflight_frame _ _ _ Hpre) as [_ (_ & _ & _ & Hs & _ & Hval & Hbk & _)].
  cbn in Hs, Hval, Hbk.
  destruct (get_nagios_object_frame _ _ _ Hget) as (Hps & Hw & _).
  rewrite main_split, Hpre. unfold finish, reconcile. unfold_monad.
  rewrite Hs, Hst, decide_False; [|done].
  unfold delete_nagios_object. unfold_monad. unfold_calls.
  rewrite Hget. cbn. rewrite Hps, Hbk, Hval. unfold backed_up, committing in *.
  destruct (backup ps || validate ps); cbn.
  - destruct Hb as [b Hb]. rewrite Hw, Hb. cbn.
    rewrite Hdel. eexists. split; [reflexivity|]. cbn.
    by rewrite <- app_assoc.
  - subst w1. rewrite Hw, Hdel. eexists. split; [reflexivity|]. done.
Qed.

(** *** The key set *)

(** Every key of the set the lookup is made with carries the value the
    declaration gives it, null when the declaration has none; the set
    is never empty. *)
Theorem key_set_from_declaration s ids s' :
  nagios_object_ids s = (Returned ids, s') →
  ids ≠ ∅
  ∧ ∀ k v, ids !! k = Some v → v = dict_get (parameters (params s)) k.
Proof.
  unfold nagios_object_ids. unfold_monad.
  destruct (py_eq_zero _).
  - destruct (is_None _); cbn; [discriminate|]. intros [= <- <-].
    split; [apply insert_non_empty|].
    intros k v Hk. by apply lookup_singleton_Some in Hk as [<- <-].
  - destruct (type (params s)); cbn;
      repeat match goal with
        | |- context [match object_type_keys ?t with _ => _ end] =>
            destruct (object_type_keys t); cbn
        | |- context [if is_None ?v then _ else _] => destruct (is_None v); cbn
        end; try discriminate;
      intros [= <- <-]; (split; [apply insert_non_empty|]);
      intros k v Hk;
      repeat (apply lookup_insert_Some in Hk as [[<- <-]|[_ Hk]]; [done|]);
      by apply lookup_singleton_Some in Hk as [<- <-].
Qed.
(** *** Rollback of a deletion *)

Section RollbackOfDelete.

(** From the collaborators, as for the rollback of a save; and a move
    touches no file but its source and its destination. *)
Hypothesis assignment_keeps_files : ∀ cfg w p,
  read_file (set_Model_cfg_file cfg w) p = read_file w p.

Hypothesis backup_local_copies : ∀ w f w' b,
  backup_local w (Some f) = Done (w', b) →
  is_Some (read_file w f) →
  b ≠ "" ∧ b ≠ f ∧ read_file w' b = read_file w f.

Hypothesis atomic_move_moves : ∀ w b f,
  is_Some (read_file w b) →
  read_file (atomic_move w (Some b) (Some f)) f = read_file w b.

Hypothesis atomic_move_keeps_others : ∀ w b f p,
  p ≠ b → p ≠ f →
  read_file (atomic_move w (Some b) (Some f)) p = read_file w p.

(** The deletion of an object [o] of the file [f], with validation asked
    for, the delete leaving the backup as it is, and the validator
    rejecting the configuration.  The invocation fails with the
    validator's output; after the lookup it has backed [f] up, deleted
    the object, run the validator and moved the backup onto [f], and
    nothing else.  [f] reads as it did when the invocation started; every
    other file, the backup apart, stays as the delete left it, so what
    the delete cleaned up in the files of related objects is not
    restored. *)
Theorem rollback_restores_file_of_deleted ps w sc s1 o f w1 b w2 o2 out err :
  state ps = absent → validate ps = true →
  preflight (start ps w) = (Returned (), sc) →
  get_nagios_object sc = (Returned (Some o), s1) →
  get_filename o = Some f →
  is_Some (read_file w f) →
  backup_local (world sc) (Some f) = Done (w1, b) →
  obj_delete w1 o false true = inr (w2, o2) →
  read_file w2 b = read_file w1 b →
  verify_config w2 (nagios_bin (params sc)) (nagios_cfg (params sc))
  = (false, out, err) →
  ∃ s', main (start ps w) = (Failed (ValidationFailed (str_or out err)), s')
        ∧ log s'
          = (log s1
             ++ [EBackupLocal (Some f); EDelete o false true;
                 EVerifyConfig (nagios_bin (params sc)) (nagios_cfg (params sc));
                 EAtomicMove (Some b) (Some f)])%list
        ∧ read_file (world s') f = read_file w f
        ∧ ∀ p, p ≠ b → p ≠ f → read_file (world s') p = read_file w2 p.
Proof.
  intros Hst Hv Hpre Hget Hf Hexists Hb Hdel Hkeep Hverify.
  destruct (preflight_frame _ _ _ Hpre) as [_ (_ & _ & _ & Hs & _ & Hval & _)].
  cbn in Hs, Hval.
  pose proof (preflight_files assignment_keeps_files _ _ _ _ f Hpre) as Hfiles.
  rewrite <- Hfiles in Hexists.
  destruct (backup_local_copies _ _ _ _ Hb Hexists) as (Hne & Hbf & Hcopy).
  destruct (get_nagios_object_frame _ _ _ Hget) as (Hps & Hw & _).
  assert (Hrec : reconcile sc
                 = (Returned (true, Some f, Some (defined_attributes o2),
                              obj_str o, "", Some b),
                    {| params := params sc; world := w2;
                       log := (log s1 ++ [EBackupLocal (Some f);
                                          EDelete o false true])%list |})).
  { unfold reconcile. unfold_monad. rewrite Hs, Hst, decide_False; [|done].
    unfold delete_nagios_object. unfold_monad. unfold_calls.
    rewrite Hget. cbn. rewrite Hps, Hval, Hv, orb_true_r, Hf. cbn.
    rewrite Hw, Hb. cbn. rewrite Hdel. cbn. by rewrite Hps, <- app_assoc. }
  eexists. split.
  - rewrite main_split, Hpre. unfold finish. unfold_monad. rewrite Hrec.
    apply conclude_rejected; cbn; [by rewrite Hval|done].
  - cbn. destruct (decide (Some b = Some "")) as [[= Heq]|_]; [done|].
    split; [by rewrite <- app_assoc|]. split.
    + rewrite atomic_move_moves; rewrite Hkeep, Hcopy; done.
    + intros p Hpb Hpf. by apply atomic_move_keeps_others.
Qed.

End RollbackOfDelete.

(** *** An existing object without [update] *)

(** With [update] off, an object that exists is left as it is, whatever
    the declaration says of its attributes: after the lookup the
    invocation only calls for the file attributes to be set, and ends as
    that call does.  When it answers, the invocation reports the
    object's file and the attributes the object has, and no change other
    than the one the call answered. *)
Theorem existing_object_without_update ps w sc s1 o :
  state ps = present → update ps = false →
  preflight (start ps w) = (Returned (), sc) →
  get_nagios_object sc = (Returned (Some o), s1) →
  is_dirty o = false →
  let file_args :=
    load_file_common_arguments (set_path (get_filename o) (params sc)) in
  ∃ r s3,
    main (start ps w) = (r, s3)
    ∧ log s3 = (log s1 ++ [ESetFsAttributes file_args false])%list
    ∧ match set_fs_attributes_if_different (world sc) file_args false with
      | Done (w3, c) =>
          world s3 = w3
          ∧ ∃ res, r = Returned res
                   ∧ res_changed res = c
                   ∧ res_path res = get_filename o
                   ∧ res_nagios_object res = Some (defined_attributes o)
      | Throws e => r = Raised e ∧ world s3 = world sc
      | Exits message =>
          r = Failed (FrameworkFailed message) ∧ world s3 = world sc
      end.
Proof.
  intros Hst Hupd Hpre Hget Hd file_args.
  destruct (preflight_frame _ _ _ Hpre) as [_ (_ & _ & _ & Hs & Hu & _)].
  cbn in Hs, Hu.
  destruct (get_nagios_object_frame _ _ _ Hget) as (Hps & Hw & _).
  assert (Hrec : reconcile sc
                 = (Returned (false, get_filename o,
                              Some (defined_attributes o), obj_str o,
                              obj_str o, Some ""), s1)).
  { unfold reconcile. unfold_monad. rewrite Hs, Hst, decide_True; [|done].
    unfold create_nagios_object. unfold_monad.
    rewrite Hget. cbn. rewrite ?Hps, Hu, Hupd. cbn. by rewrite Hd. }
  pose proof (conclude_unchanged (get_filename o) (Some (defined_attributes o))
                (obj_str o) (obj_str o) (Some "") s1) as Hconclude.
  cbn zeta in Hconclude. subst file_args. rewrite <- Hps, <- Hw.
  assert (Hmain : main (start ps w)
                  = conclude (false, get_filename o,
                              Some (defined_attributes o), obj_str o,
                              obj_str o, Some "") s1).
  { rewrite main_split, Hpre. unfold finish. unfold_monad. by rewrite Hrec. }
  rewrite Hmain.
  destruct (set_fs_attributes_if_different _ _ _) as [[w3 c]| |].
  - destruct Hconclude as (res & -> & Hch & Hpath & Hattrs).
    eexists _, _. split; [done|]. split; [done|]. split; [done|].
    by exists res.
  - rewrite Hconclude. by eexists _, _.
  - rewrite Hconclude. by eexists _, _.
Qed.

End Properties.

(** ** The module on the small tree *)

(** C1 as stated does not hold for every type: a host-dependency
    declared with none of its four identifying attributes passes the
    identity resolution, and the invocation goes on to create the
    object. *)
Lemma hostdependency_without_identity_not_refused :
  lacks_identity (Mini.declare Hostdependency ∅)
  ∧ ¬ fails_for_missing_identity (Mini.declare Hostdependency ∅) Mini.empty_tree
  ∧ ∃ r, (main (start (Mini.declare Hostdependency ∅) Mini.empty_tree)).1
          = Returned r
          ∧ res_changed r = true.
Proof.
  split; [|split].
  - repeat constructor.
  - intros (f & s' & H & _). apply (f_equal fst) in H.
    vm_compute in H. discriminate H.
  - eexists. split; [vm_compute; reflexivity|reflexivity].
Qed.

Lemma missing_demanded_key_fails_witness :
  ∃ f s', main (start (Mini.declare Host ∅) Mini.empty_tree) = (Failed f, s')
          ∧ kind_of f = missing_required_attribute
          ∧ log s' = [].
Proof.
  eapply (missing_demanded_key_fails (L := Mini.lib)
            (Mini.declare Host ∅) Mini.empty_tree _ "host_name").
  - apply outcome_of. vm_compute. reflexivity.
  - reflexivity.
  - reflexivity.
Defined.

(** C8 as stated does not hold, either way.  A declaration with a list
    for a value, to be validated with a binary that is not executable,
    fails for the binary; the values are never looked at.  And a
    declaration whose values are null, integers or strings fails with
    the invalid-attribute-value error when one of the integers is beyond
    [sys.maxint]. *)
Lemma invalid_value_neither_way :
  (has_invalid_value Mini.list_valued
   ∧ ¬ fails_for_invalid_value Mini.list_valued Mini.tree
   ∧ (main (Mini.boot Mini.list_valued Mini.tree)).1
     = Failed (NagiosBinNotExecutable "/opt/nagios/bin/nagios"))
  ∧ (¬ has_invalid_value Mini.long_valued
     ∧ fails_for_invalid_value Mini.long_valued Mini.tree).
Proof.
  split; [split; [|split]|split].
  - exists "parents", (VOther "['host1']"). split; [reflexivity|]. intros [].
  - intros (k & s' & H). vm_compute in H. discriminate H.
  - vm_compute. reflexivity.
  - intros (k & v & Hk & Hv). apply Hv. cbn in Hk.
    apply lookup_insert_Some in Hk as [[_ <-]|[_ Hk]]; [done|].
    by apply lookup_singleton_Some in Hk as [_ <-].
  - exists "notification_interval". eexists. apply outcome_of.
    vm_compute. reflexivity.
Qed.

Lemma invalid_value_fails_witness :
  let ps := Mini.long_valued in
  fails_for_invalid_value ps Mini.tree
  ∧ (∀ k s', main (Mini.boot ps Mini.tree)
             = (Failed (InvalidParameterItem k), s') →
             log s' = []
             ∧ ∃ v, parameters ps !! k = Some v ∧ ¬ null_int_or_str v).
Proof.
  intros ps.
  destruct (invalid_value_fails (L := Mini.lib) ps Mini.tree
              (check_environment (Mini.boot ps Mini.tree)).2) as [[_ H1] H2].
  - apply outcome_of. vm_compute. reflexivity.
  - split; [|exact H2]. apply H1.
    exists "notification_interval", (VInt 9223372036854775808).
    split; [reflexivity|]. cbn. lia.
Defined.

Lemma ambiguous_match_fails_witness :
  let ps := Mini.declare Host {[ "host_name" := VStr "host1" ]} in
  ∃ s', main (Mini.boot ps Mini.twin_tree) = (Failed AmbiguousMatch, s')
        ∧ kind_of AmbiguousMatch = ambiguous_match
        ∧ log s' = [EFilter Host {[ "host_name" := VStr "host1" ]}]
        ∧ no_mutation (log s')
        ∧ world s' = world (preflight (Mini.boot ps Mini.twin_tree)).2.
Proof.
  intros ps.
  eapply (ambiguous_match_fails ps Mini.twin_tree
            (preflight (Mini.boot ps Mini.twin_tree)).2
            {[ "host_name" := VStr "host1" ]}).
  - apply outcome_of. vm_compute. reflexivity.
  - vm_compute. reflexivity.
  - vm_compute. reflexivity.
  - cbn. lia.
Defined.

Lemma template_identified_by_name_witness :
  let ps := Mini.declare Service {[ "register" := VInt 0 ]} in
  let s := Mini.boot ps Mini.tree in
  reconcile s = (Failed (TemplateKeyMissing "name" Service), s).
Proof.
  intros ps s.
  apply (template_identified_by_name s); reflexivity.
Defined.

(** The small tree's objects obey the two facts about [set_attribute]. *)
Lemma Mini_current_set o k v k' :
  Mini.current (Mini.set o k v) k'
  = if decide (k' = k) then v else Mini.current o k'.
Proof.
  unfold Mini.set. destruct (decide (Mini.current o k = v)) as [Hv|Hv].
  - destruct (decide (k' = k)) as [->|]; done.
  - unfold Mini.current. cbn. destruct (decide (k' = k)) as [->|Hne].
    + by rewrite lookup_insert_eq.
    + by rewrite lookup_insert_ne.
Qed.

Lemma Mini_dirty_set o k v :
  Mini.dirty (Mini.set o k v) = true →
  Mini.dirty o = true ∨ Mini.current o k ≠ v.
Proof.
  unfold Mini.set. destruct (decide (Mini.current o k = v)); [by left|by right].
Qed.



Lemma update_applies_and_reports_witness :
  let ps := Mini.declare Host {[ "host_name" := VStr "host1";
                                 "alias" := VStr "Host one";
                                 "address" := VNone ]} in
  let s := Mini.boot ps Mini.tree in
  let o := Mini.parsed "/etc/nagios/objects/hosts.cfg" Mini.host1 in
  let o' := set_attributes o (parameters ps) in
  (∀ k v, parameters ps !! k = Some v → Mini.current o' k = v)
  ∧ (∀ k, parameters ps !! k = None → Mini.current o' k = Mini.current o k)
  ∧ (is_dirty o' = true →
     ∃ k v, parameters ps !! k = Some v ∧ Mini.current o k ≠ v).
Proof.
  intros ps s o o'.
  pose proof (update_applies_and_reports Mini.current Mini_current_set
                Mini_dirty_set s (get_nagios_object s).2 o) as H.
  destruct H as (H1 & H2 & H3 & _).
  - apply outcome_of. vm_compute. reflexivity.
  - reflexivity.
  - reflexivity.
  - exact (conj H1 (conj H2 H3)).
Defined.



(** The small tree's files obey what the rollback relies on. *)
Lemma string_length_append (a b : string) :
  String.length (a +:+ b) = String.length a + String.length b.
Proof. induction a as [|c a IH]; simpl; [done|]. by f_equal. Qed.

Lemma Mini_backup_copies w f w' b :
  Mini.backup_copy w (Some f) = Done (w', b) →
  is_Some (Mini.read w f) →
  b ≠ "" ∧ b ≠ f ∧ Mini.read w' b = Mini.read w f.
Proof.
  unfold Mini.backup_copy, Mini.read.
  destruct (Mini.files w !! f) as [c|] eqn:E; cbn.
  - intros [= <- <-] _. repeat split.
    + intros H. apply (f_equal String.length) in H.
      rewrite string_length_append in H. cbn in H. lia.
    + intros H. apply (f_equal String.length) in H.
      rewrite string_length_append in H. cbn in H. lia.
    + cbn. by rewrite lookup_insert_eq.
  - intros _ [x Hx]. discriminate Hx.
Qed.

Lemma Mini_save_writes_own_file w o w' o' p :
  Mini.save_object w o = inr (w', o') →
  Mini.o_file o' ≠ Some p →
  Mini.read w' p = Mini.read w p.
Proof.
  unfold Mini.save_object, Mini.read.
  destruct (Mini.o_is_new o).
  - intros [= <- <-] Hp. cbn in *. rewrite lookup_insert_ne; [done|congruence].
  - destruct (Mini.replace_first _ _ _) as [l|]; [|discriminate].
    intros [= <- <-] Hp. cbn in *. rewrite lookup_insert_ne; [done|congruence].
Qed.

Lemma Mini_move_moves w b f :
  is_Some (Mini.read w b) →
  Mini.read (Mini.move w (Some b) (Some f)) f = Mini.read w b.
Proof.
  unfold Mini.move, Mini.read.
  destruct (Mini.files w !! b) as [c|] eqn:E; cbn.
  - intros _. by rewrite lookup_insert_eq.
  - intros [x Hx]. discriminate Hx.
Qed.

Lemma Mini_remove_removes w p :
  Mini.read (Mini.remove_file w (Some p)) p = None.
Proof. unfold Mini.remove_file, Mini.read. cbn. by rewrite lookup_delete_eq. Qed.

Lemma Mini_set_fs_attributes_keeps_files w a changed w' c p :
  Mini.set_fs_attributes w a changed = Done (w', c) →
  Mini.read w' p = Mini.read w p.
Proof.
  unfold Mini.set_fs_attributes. destruct a.1; [|discriminate].
  destruct (decide _); by intros [= <- <-].
Qed.

Lemma Mini_file_arguments_need_path (w : Mini.machine) ps changed :
  path ps = None →
  set_fs_attributes_if_different w (load_file_common_arguments ps) changed
  = Throws (KeyError "path").
Proof. intros Hp. cbn. unfold Mini.set_fs_attributes. cbn. by rewrite Hp. Qed.

Lemma absent_path_witness :
  let gone := Mini.retract Host {[ "host_name" := VStr "host9" ]} in
  let there := Mini.retract Host {[ "host_name" := VStr "host1" ]} in
  (∃ s', main (Mini.boot gone Mini.tree) = (Raised (KeyError "path"), s')
         ∧ world s' = Mini.tree)
  ∧ ∃ res s', main (Mini.boot there Mini.tree) = (Returned res, s')
              ∧ res_changed res = true
              ∧ res_path res = Some "/etc/nagios/objects/hosts.cfg".
Proof.
  intros gone there. split.
  - pose (sc := (preflight (Mini.boot gone Mini.tree)).2).
    destruct (absent_path (L := Mini.lib) Mini_file_arguments_need_path
                gone Mini.tree sc) as [H _].
    + reflexivity.
    + apply outcome_of. vm_compute. reflexivity.
    + destruct (H (get_nagios_object sc).2) as (ids & s' & Hmain & Hworld & _).
      * apply outcome_of. vm_compute. reflexivity.
      * exists s'. split; [exact Hmain|]. rewrite Hworld. reflexivity.
  - pose (sc := (preflight (Mini.boot there Mini.tree)).2).
    pose (o := Mini.parsed "/etc/nagios/objects/hosts.cfg" Mini.host1).
    destruct (absent_path (L := Mini.lib) Mini_file_arguments_need_path
                there Mini.tree sc) as [_ H].
    + reflexivity.
    + apply outcome_of. vm_compute. reflexivity.
    + edestruct (H (get_nagios_object sc).2 o (world sc) None)
        as (res & s' & Hmain & Hchanged & Hpath & _).
      * apply outcome_of. vm_compute. reflexivity.
      * split; reflexivity.
      * vm_compute. reflexivity.
      * intros Hv. discriminate Hv.
      * vm_compute. reflexivity.
      * exists res, s'. split; [exact Hmain|]. split; [exact Hchanged|].
        exact Hpath.
Defined.

Lemma backup_around_validation_witness :
  let ps := Mini.declare_checked Host {[ "host_name" := VStr "host1";
                                         "alias" := VStr "Host one" ]} in
  let b := "/etc/nagios/objects/hosts.cfg" +:+ Mini.backup_suffix in
  ∃ r s3, main (Mini.boot ps Mini.tree) = (Returned r, s3)
          ∧ res_backup_file r = None
          ∧ ECleanup (Some b) ∈ log s3
          ∧ Mini.read (world s3) b = None.
Proof.
  intros ps b0.
  pose (sc := (preflight (Mini.boot ps Mini.tree)).2).
  pose (r0 := result_of (false, None, None, "", "", None) (reconcile sc).1).
  destruct (backup_around_validation (L := Mini.lib) (λ _ _ _, eq_refl)
              Mini_backup_copies Mini_remove_removes
              Mini_set_fs_attributes_keeps_files ps Mini.tree sc
              r0.1.1.1.1.2 r0.1.1.1.2 r0.1.1.2 r0.1.2 r0.2 (reconcile sc).2)
    as (ids & f & change & w1 & b & _ & _ & _ & _ & Hbf & _ & Hrun).
  - reflexivity.
  - apply outcome_of. vm_compute. reflexivity.
  - apply outcome_of. vm_compute. reflexivity.
  - vm_compute in Hbf. injection Hbf as <-.
    edestruct (Hrun "Things look okay" "") as (r & s3 & Hm & _ & _ & Hend).
    + vm_compute. reflexivity.
    + vm_compute. reflexivity.
    + exists r, s3. split; [exact Hm|]. exact Hend.
Defined.

Lemma rollback_restores_updated_file_witness :
  let ps := Mini.declare_checked Host {[ "host_name" := VStr "host1";
                                         "address" := VNone ]} in
  let f := "/etc/nagios/objects/hosts.cfg" in
  ∃ s', main (Mini.boot ps Mini.tree)
        = (Failed (ValidationFailed "Error: Host has no address"), s')
        ∧ Mini.read (world s') f = Mini.read Mini.tree f.
Proof.
  intros ps f.
  pose (sc := (preflight (Mini.boot ps Mini.tree)).2).
  pose (o := Mini.parsed f Mini.host1).
  edestruct (rollback_restores_updated_file (L := Mini.lib)
               (λ _ _ _, eq_refl) Mini_backup_copies
               Mini_save_writes_own_file Mini_move_moves
               ps Mini.tree sc (get_nagios_object sc).2 o f)
    as (s' & Hmain & _ & _ & Hread).
  - reflexivity.
  - reflexivity.
  - reflexivity.
  - apply outcome_of. vm_compute. reflexivity.
  - apply outcome_of. vm_compute. reflexivity.
  - reflexivity.
  - vm_compute. eexists. reflexivity.
  - vm_compute. reflexivity.
  - vm_compute. reflexivity.
  - vm_compute. reflexivity.
  - vm_compute. reflexivity.
  - vm_compute. reflexivity.
  - exists s'. split; [exact Hmain|exact Hread].
Defined.

Lemma rollback_deletes_created_file_witness :
  let p := "/etc/nagios/objects/host2.cfg" in
  let ps := Mini.declare_checked_at p Host {[ "host_name" := VStr "host2" ]} in
  ∃ s', main (Mini.boot ps Mini.empty_tree)
        = (Failed (ValidationFailed "Error: Host has no address"), s')
        ∧ Mini.read (world s') p = None.
Proof.
  intros p ps.
  pose (sc := (preflight (Mini.boot ps Mini.empty_tree)).2).
  edestruct (rollback_deletes_created_file (L := Mini.lib) Mini_remove_removes
               ps Mini.empty_tree sc (get_nagios_object sc).2)
    as (s' & Hmain & _ & _ & _ & Hread).
  - reflexivity.
  - reflexivity.
  - apply outcome_of. vm_compute. reflexivity.
  - apply outcome_of. vm_compute. reflexivity.
  - reflexivity.
  - vm_compute. reflexivity.
  - vm_compute. reflexivity.
  - vm_compute. reflexivity.
  - vm_compute. reflexivity.
  - exists s'. split; [exact Hmain|exact Hread].
Defined.

(** ** Further runs on the small tree *)

Lemma Mini_move_keeps_others w b f p :
  p ≠ b → p ≠ f →
  Mini.read (Mini.move w (Some b) (Some f)) p = Mini.read w p.
Proof.
  intros Hb Hf. unfold Mini.move, Mini.read.
  destruct (Mini.files w !! b) as [c|] eqn:E; cbn; [|done].
  by rewrite lookup_insert_ne, lookup_delete_ne.
Qed.

Lemma get_nagios_bin_first_witness :
  let s := Mini.boot (Mini.declare Host ∅) Mini.tree in
  get_nagios_bin "nagios" s = (Returned (Some "/usr/sbin/nagios"), s).
Proof.
  intros s.
  destruct (get_nagios_bin_first (L := Mini.lib) s "/usr/bin:/usr/sbin" "nagios")
    as (r & Hrun & _).
  - reflexivity.
  - assert (r = Some "/usr/sbin/nagios") as ->; [|exact Hrun].
    vm_compute in Hrun. congruence.
Defined.

Lemma check_environment_returned_witness :
  let ps := Mini.declare_checked Host {[ "host_name" := VStr "host1" ]} in
  let s1 := (check_environment (Mini.boot ps Mini.tree)).2 in
  nagios_cfg (params s1) = Some "/etc/nagios/nagios.cfg"
  ∧ ∃ b, nagios_bin (params s1) = Some b ∧ executable (world s1) b = true.
Proof.
  intros ps s1.
  destruct (check_environment_returned (L := Mini.lib) ps Mini.tree s1)
    as (_ & _ & _ & Hcfg & _ & Hbin).
  - apply outcome_of. vm_compute. reflexivity.
  - split; [exact Hcfg|]. cbn in Hbin.
    destruct Hbin as (b & Hb & Hexe & _). by exists b.
Defined.

Lemma validator_search_without_PATH_witness :
  let ps := Mini.declare_checked Host {[ "host_name" := VStr "host1" ]} in
  ∃ s', main (Mini.boot ps Mini.unset_PATH) = (Raised (KeyError "PATH"), s')
        ∧ log s' = [].
Proof.
  intros ps.
  apply (validator_search_without_PATH (L := Mini.lib) ps Mini.unset_PATH).
  - reflexivity.
  - intros cfg H. discriminate H.
  - reflexivity.
  - reflexivity.
  - reflexivity.
Defined.

Lemma validator_not_on_PATH_witness :
  let ps := Mini.declare_checked Host {[ "host_name" := VStr "host1" ]} in
  ∃ s', main (Mini.boot ps Mini.no_nagios) = (Failed NagiosBinNotFound, s')
        ∧ kind_of NagiosBinNotFound = validator_not_found
        ∧ log s' = [].
Proof.
  intros ps.
  apply (validator_not_on_PATH (L := Mini.lib) ps Mini.no_nagios
           "/usr/bin:/usr/sbin").
  - reflexivity.
  - intros cfg H. discriminate H.
  - reflexivity.
  - reflexivity.
  - reflexivity.
  - change (split os_pathsep "/usr/bin:/usr/sbin") with ["/usr/bin"; "/usr/sbin"].
    repeat constructor.
Defined.

Lemma early_failure_without_mutation_witness :
  let s' := (main (Mini.boot (Mini.declare Host ∅) Mini.tree)).2 in
  no_mutation (log s')
  ∧ (world s' = Mini.tree ∨ ∃ cfg, world s' = set_Model_cfg_file cfg Mini.tree).
Proof.
  intros s'.
  apply (early_failure_without_mutation (L := Mini.lib) (Mini.declare Host ∅)
           Mini.tree (ObjectKeyMissing "host_name" Host) s').
  - apply outcome_of. vm_compute. reflexivity.
  - intros ex H. discriminate H.
  - intros message H. discriminate H.
  - intros message H. discriminate H.
Defined.

Lemma unvalidated_effects_witness :
  let ps := Mini.declare Host {[ "host_name" := VStr "host2";
                                 "address" := VStr "192.0.2.2" ]} in
  Forall (unvalidated ps) (log (main (Mini.boot ps Mini.tree)).2).
Proof.
  intros ps.
  apply (unvalidated_effects (L := Mini.lib) ps Mini.tree
           (main (Mini.boot ps Mini.tree)).1).
  - reflexivity.
  - apply outcome_of. reflexivity.
Defined.

Lemma main_results_witness :
  let ps := Mini.declare Host {[ "host_name" := VStr "host2";
                                 "address" := VStr "192.0.2.2" ]} in
  let run := main (Mini.boot ps Mini.tree) in
  path (params run.2) = res_path (result_of Mini.no_results run.1)
  ∧ same_declaration (set_path (path ps) (params run.2)) ps.
Proof.
  intros ps run.
  destruct (main_results (L := Mini.lib) ps Mini.tree
              (result_of Mini.no_results run.1) run.2)
    as (Hpath & _ & _ & Hsame & _).
  - apply outcome_of. vm_compute. reflexivity.
  - split; [exact Hpath|exact Hsame].
Defined.

Lemma unchanged_run_witness :
  let ps := Mini.declare_checked Host {[ "host_name" := VStr "host1";
                                         "alias" := VStr "Host 1" ]} in
  let gone := Mini.retract_checked Host {[ "host_name" := VStr "host9" ]} in
  (∃ res s3, main (Mini.boot ps Mini.tree) = (Returned res, s3)
             ∧ res_changed res = false
             ∧ world s3 = world (preflight (Mini.boot ps Mini.tree)).2)
  ∧ ∃ s3, main (Mini.boot gone Mini.tree) = (Raised (KeyError "path"), s3).
Proof.
  intros ps gone. split.
  - pose (sc := (preflight (Mini.boot ps Mini.tree)).2).
    pose (r0 := result_of (false, None, None, "", "", None) (reconcile sc).1).
    destruct (unchanged_run (L := Mini.lib) ps Mini.tree sc
                r0.1.1.1.1.2 r0.1.1.1.2 r0.1.1.2 r0.1.2 r0.2 (reconcile sc).2)
      as (r & s3 & Hmain & _ & Hfs).
    + apply outcome_of. vm_compute. reflexivity.
    + apply outcome_of. vm_compute. reflexivity.
    + vm_compute in Hfs. destruct Hfs as (Hworld & res & -> & Hchanged & _).
      exists res, s3. split; [exact Hmain|]. split; [exact Hchanged|].
      etransitivity; [exact Hworld|]. vm_compute. reflexivity.
  - pose (sc := (preflight (Mini.boot gone Mini.tree)).2).
    pose (r0 := result_of (true, None, None, "", "", None) (reconcile sc).1).
    destruct (unchanged_run (L := Mini.lib) gone Mini.tree sc
                r0.1.1.1.1.2 r0.1.1.1.2 r0.1.1.2 r0.1.2 r0.2 (reconcile sc).2)
      as (r & s3 & Hmain & _ & Hfs).
    + apply outcome_of. vm_compute. reflexivity.
    + apply outcome_of. vm_compute. reflexivity.
    + vm_compute in Hfs. destruct Hfs as [-> _]. exists s3. exact Hmain.
Defined.

Lemma lookup_failure_witness :
  let ps := Mini.declare Host {[ "host_name" := VStr "host1" ]} in
  ∃ s', main (L := Mini.unparsable) (Mini.boot ps Mini.tree)
        = (Failed (AvailabilityCheckFailed (LibraryError "Unexpected token")),
           s')
        ∧ log s' = [EFilter Host {[ "host_name" := VStr "host1" ]}].
Proof.
  intros ps.
  destruct (lookup_failure (L := Mini.unparsable) ps Mini.tree
              (preflight (L := Mini.unparsable) (Mini.boot ps Mini.tree)).2
              {[ "host_name" := VStr "host1" ]}
              (LibraryError "Unexpected token"))
    as (s' & Hmain & _ & Hlog & _).
  - apply outcome_of. vm_compute. reflexivity.
  - vm_compute. reflexivity.
  - reflexivity.
  - exists s'. split; [exact Hmain|exact Hlog].
Defined.

Lemma type_without_key_witness :
  let ps := Mini.declare Hostescalation {[ "host_name" := VStr "host1" ]} in
  let sc := (preflight (Mini.boot ps Mini.tree)).2 in
  main (Mini.boot ps Mini.tree) = (Raised (KeyError "hostescalation"), sc)
  ∧ log sc = [].
Proof.
  intros ps sc.
  apply (type_without_key (L := Mini.lib) ps Mini.tree sc).
  - apply outcome_of. vm_compute. reflexivity.
  - reflexivity.
  - cbn. intros H.
    repeat (apply elem_of_cons in H as [H|H]; [discriminate H|]).
    by apply elem_of_nil in H.
  - reflexivity.
Defined.

Lemma save_failure_witness :
  let ps := Mini.declare Host {[ "host_name" := VStr "host2" ]} in
  ∃ s', main (L := Mini.read_only) (Mini.boot ps Mini.tree)
        = (Failed (WriteFailed (LibraryError "Permission denied")), s')
        ∧ world s' = Mini.tree.
Proof.
  intros ps.
  pose (sc := (preflight (L := Mini.read_only) (Mini.boot ps Mini.tree)).2).
  destruct (save_failure (L := Mini.read_only) ps Mini.tree sc
              (get_nagios_object (L := Mini.read_only) sc).2 None
              (Mini.new Host None {[ "host_name" := VStr "host2" ]}) None
              Mini.tree (LibraryError "Permission denied"))
    as (s' & Hmain & _ & _ & Hworld).
  - reflexivity.
  - apply outcome_of. vm_compute. reflexivity.
  - apply outcome_of. vm_compute. reflexivity.
  - split; [reflexivity|split; reflexivity].
  - reflexivity.
  - reflexivity.
  - exists s'. split; [exact Hmain|exact Hworld].
Defined.

Lemma delete_failure_witness :
  let ps := Mini.retract Host {[ "host_name" := VStr "host1" ]} in
  ∃ s', main (L := Mini.read_only) (Mini.boot ps Mini.tree)
        = (Raised (LibraryError "Permission denied"), s')
        ∧ world s' = Mini.tree.
Proof.
  intros ps.
  pose (sc := (preflight (L := Mini.read_only) (Mini.boot ps Mini.tree)).2).
  destruct (delete_failure (L := Mini.read_only) ps Mini.tree sc
              (get_nagios_object (L := Mini.read_only) sc).2
              (Mini.parsed "/etc/nagios/objects/hosts.cfg" Mini.host1)
              Mini.tree (LibraryError "Permission denied"))
    as (s' & Hmain & _ & Hworld).
  - reflexivity.
  - apply outcome_of. vm_compute. reflexivity.
  - apply outcome_of. vm_compute. reflexivity.
  - reflexivity.
  - reflexivity.
  - exists s'. split; [exact Hmain|exact Hworld].
Defined.

Lemma key_set_from_declaration_witness :
  let s := Mini.boot (Mini.declare Service
                        {[ "host_name" := VStr "host1";
                           "service_description" := VStr "PING";
                           "check_command" := VStr "check_ping" ]})
             Mini.tree in
  let ids := result_of ∅ (nagios_object_ids s).1 in
  ids ≠ ∅ ∧ ∀ k v, ids !! k = Some v → v = dict_get (parameters (params s)) k.
Proof.
  intros s ids.
  apply (key_set_from_declaration (L := Mini.lib) s ids (nagios_object_ids s).2).
  apply outcome_of. vm_compute. reflexivity.
Defined.

Lemma rollback_restores_file_of_deleted_witness :
  let ps := Mini.retract_checked Service
              {[ "host_name" := VStr "host1";
                 "service_description" := VStr "PING" ]} in
  let f := "/etc/nagios/objects/services.cfg" in
  ∃ s', main (Mini.boot ps Mini.broken_tree)
        = (Failed (ValidationFailed "Error: Host has no address"), s')
        ∧ Mini.read (world s') f = Mini.read Mini.broken_tree f.
Proof.
  intros ps f.
  pose (sc := (preflight (Mini.boot ps Mini.broken_tree)).2).
  pose (o := Mini.parsed f Mini.ping).
  edestruct (rollback_restores_file_of_deleted (L := Mini.lib)
               (λ _ _ _, eq_refl) Mini_backup_copies Mini_move_moves
               Mini_move_keeps_others
               ps Mini.broken_tree sc (get_nagios_object sc).2 o f)
    as (s' & Hmain & _ & Hread & _).
  - reflexivity.
  - reflexivity.
  - apply outcome_of. vm_compute. reflexivity.
  - apply outcome_of. vm_compute. reflexivity.
  - reflexivity.
  - vm_compute. eexists. reflexivity.
  - vm_compute. reflexivity.
  - vm_compute. reflexivity.
  - vm_compute. reflexivity.
  - vm_compute. reflexivity.
  - exists s'. split; [exact Hmain|exact Hread].
Defined.

Lemma existing_object_without_update_witness :
  let ps := Mini.declare_once Host {[ "host_name" := VStr "host1";
                                      "alias" := VStr "Another name" ]} in
  ∃ res s3, main (Mini.boot ps Mini.tree) = (Returned res, s3)
            ∧ res_changed res = false
            ∧ res_nagios_object res = Some Mini.host1.2
            ∧ world s3 = Mini.tree.
Proof.
  intros ps.
  pose (sc := (preflight (Mini.boot ps Mini.tree)).2).
  destruct (existing_object_without_update (L := Mini.lib) ps Mini.tree sc
              (get_nagios_object sc).2
              (Mini.parsed "/etc/nagios/objects/hosts.cfg" Mini.host1))
    as (r & s3 & Hmain & _ & Hfs).
  - reflexivity.
  - reflexivity.
  - apply outcome_of. vm_compute. reflexivity.
  - apply outcome_of. vm_compute. reflexivity.
  - reflexivity.
  - vm_compute in Hfs.
    destruct Hfs as (Hworld & res & -> & Hchanged & _ & Hattrs).
    exists res, s3. split; [exact Hmain|]. split; [exact Hchanged|].
    split; [exact Hattrs|exact Hworld].
Defined.
